(** * Contact directory ([bot.py]): field validation, records, the address
    book and its upcoming-birthdays query.

    The Python program is embedded shallowly.  A [str] is a Rocq [string]
    (its characters are the code points U+0000..U+00FF), an [int] is a [Z],
    a raised exception is the [Raise] branch of [result], and an object that
    a method mutates in place is passed in and returned.  The parts of the
    Python library the program calls ([str.isdigit], [datetime.date],
    [datetime.strptime], [strftime]) are modelled after CPython's own
    sources ([_pydatetime.py], [_strptime.py]). *)

From Stdlib Require Import ZArith List String Ascii Bool Lia DecimalString.
Import ListNotations.

Open Scope Z_scope.

(** ** Exceptions *)

Inductive exception : Type :=
| ValueError (msg : string)
| OverflowError (msg : string).

(** The class of an exception: what an [except] clause dispatches on. *)
Inductive exception_class : Type := ValueError_class | OverflowError_class.

Definition class_of (e : exception) : exception_class :=
  match e with
  | ValueError _ => ValueError_class
  | OverflowError _ => OverflowError_class
  end.

(** [str(e)] *)
Definition message_of (e : exception) : string :=
  match e with
  | ValueError m => m
  | OverflowError m => m
  end.

Inductive result (A : Type) : Type :=
| Ok (a : A)
| Raise (e : exception).

Arguments Ok {A} a.
Arguments Raise {A} e.

Definition bind {A B : Type} (r : result A) (k : A -> result B) : result B :=
  match r with
  | Ok a => k a
  | Raise e => Raise e
  end.

Notation "x <- r ;; k" := (bind r (fun x => k))
  (at level 61, r at next level, right associativity).

Definition is_ok {A : Type} (r : result A) : bool :=
  match r with Ok _ => true | Raise _ => false end.

(** ** [datetime.date] *)

Module Datetime.

Definition MINYEAR : Z := 1.
Definition MAXYEAR : Z := 9999.

Definition _DAYS_IN_MONTH : list Z :=
  [-1; 31; 28; 31; 30; 31; 30; 31; 31; 30; 31; 30; 31].

Definition _DAYS_BEFORE_MONTH : list Z :=
  [-1; 0; 31; 59; 90; 120; 151; 181; 212; 243; 273; 304; 334].

Definition index (l : list Z) (i : Z) : Z := nth (Z.to_nat i) l 0.

(** year -> 1 if leap year, else 0. *)
Definition _is_leap (year : Z) : bool :=
  (year mod 4 =? 0) && (negb (year mod 100 =? 0) || (year mod 400 =? 0)).

(** year -> number of days before January 1st of year. *)
Definition _days_before_year (year : Z) : Z :=
  let y := year - 1 in
  y * 365 + y / 4 - y / 100 + y / 400.

(** year, month -> number of days in that month in that year. *)
Definition _days_in_month (year month : Z) : Z :=
  if (month =? 2) && _is_leap year then 29 else index _DAYS_IN_MONTH month.

(** year, month -> number of days in year preceding first day of month. *)
Definition _days_before_month (year month : Z) : Z :=
  index _DAYS_BEFORE_MONTH month
  + (if (2 <? month) && _is_leap year then 1 else 0).

(** year, month, day -> ordinal, considering 01-Jan-0001 as day 1. *)
Definition _ymd2ord (year month day : Z) : Z :=
  _days_before_year year + _days_before_month year month + day.

Definition _DI400Y : Z := 146097.
Definition _DI100Y : Z := 36524.
Definition _DI4Y : Z := 1461.
Definition _MAXORDINAL : Z := 3652059.

(** The month and day of the (0-based) [n]-th day of a year. *)
Definition _month_day (n : Z) (leapyear : bool) : Z * Z :=
  let month := Z.shiftr (n + 50) 5 in
  let preceding :=
    index _DAYS_BEFORE_MONTH month
    + (if (2 <? month) && leapyear then 1 else 0) in
  if n <? preceding then
    let month := month - 1 in
    let preceding :=
      preceding
      - (index _DAYS_IN_MONTH month
         + (if (month =? 2) && leapyear then 1 else 0)) in
    (month, n - preceding + 1)
  else (month, n - preceding + 1).

(** ordinal -> (year, month, day), considering 01-Jan-0001 as day 1. *)
Definition _ord2ymd (n : Z) : Z * Z * Z :=
  let n := n - 1 in
  let n400 := n / _DI400Y in
  let n := n mod _DI400Y in
  let year := n400 * 400 + 1 in
  let n100 := n / _DI100Y in
  let n := n mod _DI100Y in
  let n4 := n / _DI4Y in
  let n := n mod _DI4Y in
  let n1 := n / 365 in
  let n := n mod 365 in
  let year := year + (n100 * 100 + n4 * 4 + n1) in
  if (n1 =? 4) || (n100 =? 4) then (year - 1, 12, 31)
  else
    let leapyear := (n1 =? 3) && (negb (n4 =? 24) || (n100 =? 3)) in
    let '(month, day) := _month_day n leapyear in
    (year, month, day).

Record date : Type := mkdate { year : Z; month : Z; day : Z }.

(** [str(n)] for an [int]. *)
Definition str_int (n : Z) : string := NilZero.string_of_int (Z.to_int n).

(** [date(year, month, day)]: the constructor checks its fields. *)
Definition date_new (y m d : Z) : result date :=
  if negb ((MINYEAR <=? y) && (y <=? MAXYEAR)) then
    Raise (ValueError ("year " ++ str_int y ++ " is out of range"))
  else if negb ((1 <=? m) && (m <=? 12)) then
    Raise (ValueError "month must be in 1..12")
  else if negb ((1 <=? d) && (d <=? _days_in_month y m)) then
    Raise (ValueError "day is out of range for month")
  else Ok (mkdate y m d).

(** [self.replace(year=y)] *)
Definition replace_year (self : date) (y : Z) : result date :=
  date_new y (month self) (day self).

Definition toordinal (self : date) : Z :=
  _ymd2ord (year self) (month self) (day self).

Definition fromordinal (n : Z) : result date :=
  let '(y, m, d) := _ord2ymd n in date_new y m d.

(** [self < other]: the (year, month, day) triples are compared. *)
Definition lt (self other : date) : bool :=
  (year self <? year other)
  || ((year self =? year other)
      && ((month self <? month other)
          || ((month self =? month other) && (day self <? day other)))).

(** [(self - other).days] *)
Definition sub_days (self other : date) : Z :=
  toordinal self - toordinal other.

(** [self + timedelta(days=k)] *)
Definition add_days (self : date) (k : Z) : result date :=
  let o := toordinal self + k in
  if (0 <? o) && (o <=? _MAXORDINAL) then fromordinal o
  else Raise (OverflowError "date value out of range").

(** Monday == 0 ... Sunday == 6 *)
Definition weekday (self : date) : Z := (toordinal self + 6) mod 7.

(** The values a [date] object can hold. *)
Definition valid (d : date) : Prop :=
  MINYEAR <= year d <= MAXYEAR /\ 1 <= month d <= 12
  /\ 1 <= day d <= _days_in_month (year d) (month d).

End Datetime.

Import Datetime.

(** ** [str] methods, [int] and the regular expression of [strptime] *)

Module Str.

(** [ord(c)] *)
Definition code (c : ascii) : Z := Z.of_N (N_of_ascii c).

(** [chr(48 + n)] *)
Definition digit_char (n : Z) : ascii := ascii_of_N (Z.to_N (48 + n)).

Definition in_range (lo hi c : ascii) : bool :=
  (code lo <=? code c) && (code c <=? code hi).

(** [\d]: among U+0000..U+00FF the decimal digits are ['0'..'9']. *)
Definition re_digit (c : ascii) : bool := in_range "0" "9" c.

(** [c.isdigit()] for one character: the decimal digits and, in
    U+0000..U+00FF, the superscripts U+00B2, U+00B3 and U+00B9, which
    Unicode classes as digits. *)
Definition isdigit_char (c : ascii) : bool :=
  re_digit c || (code c =? 178) || (code c =? 179) || (code c =? 185).

Fixpoint all_chars (p : ascii -> bool) (s : string) : bool :=
  match s with
  | EmptyString => true
  | String c s' => p c && all_chars p s'
  end.

(** [s.isdigit()]: every character is a digit and there is at least one. *)
Definition isdigit (s : string) : bool :=
  match s with
  | EmptyString => false
  | _ => all_chars isdigit_char s
  end.

(** [len(s)] *)
Definition len (s : string) : Z := Z.of_nat (String.length s).

(** The [w] low-order decimal digits of [n]: ["%0wd" % n] for
    [0 <= n < 10^w]. *)
Fixpoint zfill (w : nat) (n : Z) : string :=
  match w with
  | O => EmptyString
  | S w' => (zfill w' (n / 10) ++ String (digit_char (n mod 10)) "")%string
  end.

Fixpoint int_digits (acc : Z) (s : string) : result Z :=
  match s with
  | EmptyString => Ok acc
  | String c s' =>
      if re_digit c then int_digits (10 * acc + (code c - 48)) s'
      else Raise (ValueError "invalid literal for int() with base 10")
  end.

Fixpoint lstrip (s : string) : string :=
  match s with
  | String " "%char s' => lstrip s'
  | _ => s
  end.

(** [int(s)] for the texts the date pattern can capture: blanks, then
    decimal digits. *)
Definition int (s : string) : result Z :=
  match lstrip s with
  | EmptyString => Raise (ValueError "invalid literal for int() with base 10")
  | t => int_digits 0 t
  end.

(** A match of an alternative: the captured text and the input left. *)
Definition capture : Type := (string * string)%type.

Definition take1 (p : ascii -> bool) (s : string) : list capture :=
  match s with
  | String a r => if p a then [(String a "", r)] else []
  | EmptyString => []
  end.

Definition take2 (p q : ascii -> bool) (s : string) : list capture :=
  match s with
  | String a (String b r) =>
      if p a && q b then [(String a (String b ""), r)] else []
  | _ => []
  end.

Definition is_char (c : ascii) (a : ascii) : bool := Ascii.eqb a c.

(** [(?P<d>3[0-1]|[1-2]\d|0[1-9]|[1-9]| [1-9])]: the matches of the
    alternatives, in the order the matcher tries them. *)
Definition re_d (s : string) : list capture :=
  take2 (is_char "3") (in_range "0" "1") s
  ++ take2 (in_range "1" "2") re_digit s
  ++ take2 (is_char "0") (in_range "1" "9") s
  ++ take1 (in_range "1" "9") s
  ++ take2 (is_char " ") (in_range "1" "9") s.

(** [(?P<m>1[0-2]|0[1-9]|[1-9])] *)
Definition re_m (s : string) : list capture :=
  take2 (is_char "1") (in_range "0" "2") s
  ++ take2 (is_char "0") (in_range "1" "9") s
  ++ take1 (in_range "1" "9") s.

(** [(?P<Y>\d\d\d\d)] *)
Definition re_Y (s : string) : option capture :=
  match s with
  | String a (String b (String c (String d r))) =>
      if re_digit a && re_digit b && re_digit c && re_digit d
      then Some (String a (String b (String c (String d ""))), r)
      else None
  | _ => None
  end.

(** [\.] *)
Definition re_dot (s : string) : option string :=
  match s with
  | String "."%char r => Some r
  | _ => None
  end.

(** Backtracking: the first alternative after which the rest of the
    pattern matches. *)
Fixpoint first_match {A B : Type} (k : A -> option B) (l : list A)
  : option B :=
  match l with
  | [] => None
  | a :: l' =>
      match k a with
      | Some b => Some b
      | None => first_match k l'
      end
  end.

(** The groups d, m, Y of a match and the input after it. *)
Record found : Type :=
  mkfound { group_d : string; group_m : string; group_Y : string;
            rest : string }.

(** [format_regex.match(data_string)] for the format ["%d.%m.%Y"]. *)
Definition match_dmY (data_string : string) : option found :=
  first_match
    (fun '(d, s1) =>
       match re_dot s1 with
       | None => None
       | Some s2 =>
           first_match
             (fun '(m, s3) =>
                match re_dot s3 with
                | None => None
                | Some s4 =>
                    match re_Y s4 with
                    | None => None
                    | Some (y, s5) => Some (mkfound d m y s5)
                    end
                end)
             (re_m s2)
       end)
    (re_d data_string).

End Str.

Import Str.

(** [datetime.strptime(data_string, "%d.%m.%Y").date()] *)
Definition strptime_dmY (data_string : string) : result date :=
  match match_dmY data_string with
  | None => Raise (ValueError "time data does not match format")
  | Some f =>
      match rest f with
      | EmptyString =>
          y <- int (group_Y f) ;;
          m <- int (group_m f) ;;
          d <- int (group_d f) ;;
          date_new y m d
      | _ => Raise (ValueError "unconverted data remains")
      end
  end.

(** [d.strftime("%d.%m.%Y")]: day and month on two digits, the year on
    four.  This is the text for the years 1000..9999; a year below 1000 is
    written by the C library, which may leave out the leading zeros. *)
Definition strftime_dmY (d : date) : string :=
  (zfill 2 (day d) ++ "." ++ zfill 2 (month d) ++ "." ++ zfill 4 (year d))%string.

(** ** More [str] methods: [split], [strip], [lower], [join] *)

Module Builtins.

(** [c.isspace()] for one character of U+0000..U+00FF: the white space that
    [split()] and [strip()] take. *)
Definition isspace_char (c : ascii) : bool :=
  let n := code c in
  ((9 <=? n) && (n <=? 13)) || ((28 <=? n) && (n <=? 32))
  || (n =? 133) || (n =? 160).

Definition is_empty (s : string) : bool :=
  match s with EmptyString => true | _ => false end.

(** The words of [s] after the word [cur] being read. *)
Fixpoint split_from (cur : string) (s : string) : list string :=
  match s with
  | EmptyString => if is_empty cur then [] else [cur]
  | String c s' =>
      if isspace_char c then
        if is_empty cur then split_from EmptyString s'
        else cur :: split_from EmptyString s'
      else split_from (cur ++ String c "")%string s'
  end.

(** [s.split()]: the maximal runs of characters that are not white space. *)
Definition split (s : string) : list string := split_from EmptyString s.

Fixpoint lstrip_ws (s : string) : string :=
  match s with
  | EmptyString => EmptyString
  | String c s' => if isspace_char c then lstrip_ws s' else s
  end.

Fixpoint rstrip_ws (s : string) : string :=
  match s with
  | EmptyString => EmptyString
  | String c s' =>
      let t := rstrip_ws s' in
      if isspace_char c && is_empty t then EmptyString else String c t
  end.

(** [s.strip()] *)
Definition strip (s : string) : string := rstrip_ws (lstrip_ws s).

(** [c.lower()] for one character of U+0000..U+00FF: A..Z and the capital
    letters U+00C0..U+00DE, but for the sign U+00D7. *)
Definition lower_char (c : ascii) : ascii :=
  let n := code c in
  if ((65 <=? n) && (n <=? 90)) || ((192 <=? n) && (n <=? 214))
     || ((216 <=? n) && (n <=? 222))
  then ascii_of_N (Z.to_N (n + 32))
  else c.

(** [s.lower()] *)
Fixpoint lower (s : string) : string :=
  match s with
  | EmptyString => EmptyString
  | String c s' => String (lower_char c) (lower s')
  end.

(** [sep.join(l)] *)
Fixpoint join (sep : string) (l : list string) : string :=
  match l with
  | [] => EmptyString
  | [x] => x
  | x :: l' => (x ++ sep ++ join sep l')%string
  end.

(** The line feed. *)
Definition newline : string := String "010"%char EmptyString.

End Builtins.

(** ** Fields of a contact record *)

(** [class Field]: an object with one attribute, [value]. *)
Module Field.

Record t (A : Type) : Type := mk { value : A }.
Arguments mk {A} value.
Arguments value {A} _.

Definition __init__ {A : Type} (value : A) : result (t A) := Ok (mk value).

(** [self.value = v] *)
Definition set_value {A : Type} (self : t A) (v : A) : t A := mk v.

End Field.

(** [class Name(Field): pass] *)
Module Name.

Definition t : Type := Field.t string.

Definition __init__ (value : string) : result t := Field.__init__ value.

End Name.

Module Phone.

Definition t : Type := Field.t string.

Definition __init__ (value : string) : result t :=
  if negb (isdigit value) || negb (len value =? 10) then
    Raise (ValueError "The phone number must contain 10 digits!")
  else Field.__init__ value.

End Phone.

Module Birthday.

Definition t : Type := Field.t date.

Definition __init__ (value : string) : result t :=
  match (date <- strptime_dmY value ;; Field.__init__ date) with
  | Raise (ValueError _) =>
      Raise (ValueError "Invalid date format. Use DD.MM.YYYY!")
  | r => r
  end.

End Birthday.

(** ** [class Record] *)

(** [add_phone] builds each [Phone] object itself, so the phones of a record
    are distinct objects and the list of them is the whole state that
    [edit_phone] writes to. *)
Module Record.

Record t : Type :=
  mk { name : Name.t; phones : list Phone.t; birthday : option Birthday.t }.

Definition set_phones (self : t) (ps : list Phone.t) : t :=
  mk (name self) ps (birthday self).

Definition set_birthday (self : t) (b : option Birthday.t) : t :=
  mk (name self) (phones self) b.

Definition __init__ (name : string) : result t :=
  n <- Name.__init__ name ;; Ok (mk n [] None).

(** A method that mutates [self]: the record after the call and what the
    call returned or raised. *)
Definition add_phone (self : t) (phone : string) : t * result unit :=
  match Phone.__init__ phone with
  | Raise e => (self, Raise e)
  | Ok p => (set_phones self (phones self ++ [p]), Ok tt)
  end.

Definition remove_phone (self : t) (phone : string) : t * result unit :=
  (set_phones self
     (filter (fun p => negb (String.eqb (Field.value p) phone)) (phones self)),
   Ok tt).

(** The [for] loop of [edit_phone] over the phone objects: the objects
    after the loop, and whether it left through [return]. *)
Fixpoint edit_loop (old_phone new_value : string) (ps : list Phone.t)
  : list Phone.t * bool :=
  match ps with
  | [] => ([], false)
  | phone :: ps' =>
      if String.eqb (Field.value phone) old_phone then
        (Field.set_value phone new_value :: ps', true)
      else
        let '(ps'', returned) := edit_loop old_phone new_value ps' in
        (phone :: ps'', returned)
  end.

Definition edit_phone (self : t) (old_phone new_phone : string)
  : t * result unit :=
  match Phone.__init__ new_phone with
  | Raise e => (self, Raise e)
  | Ok new_phone_obj =>
      let '(ps, returned) :=
        edit_loop old_phone (Field.value new_phone_obj) (phones self) in
      if returned then (set_phones self ps, Ok tt)
      else
        (set_phones self ps,
         Raise (ValueError ("Phone number " ++ old_phone ++ " not found!")))
  end.

Fixpoint find_phone_loop (phone : string) (ps : list Phone.t)
  : option Phone.t :=
  match ps with
  | [] => None
  | number :: ps' =>
      if String.eqb (Field.value number) phone then Some number
      else find_phone_loop phone ps'
  end.

Definition find_phone (self : t) (phone : string) : option Phone.t :=
  find_phone_loop phone (phones self).

Definition add_birthday (self : t) (birthday_contact : string)
  : t * result unit :=
  match Birthday.__init__ birthday_contact with
  | Raise e => (self, Raise e)
  | Ok b => (set_birthday self (Some b), Ok tt)
  end.

(** [str(self)] *)
Definition __str__ (self : t) : string :=
  let birthday_str :=
    match birthday self with
    | Some b => strftime_dmY (Field.value b)
    | None => "not set"%string
    end in
  ("Contact name: " ++ Field.value (name self) ++ ", birthday: "
   ++ birthday_str ++ ", phones: "
   ++ Builtins.join ", " (map Field.value (phones self)) ++ ".")%string.

End Record.

(** ** [class AddressBook(UserDict)] *)

Module AddressBook.

(** [self.data]: a [dict] from names to records, as the list of its items in
    insertion order. *)
Definition t : Type := list (string * Record.t).

(** [data[key] = v]: an existing key keeps its place. *)
Fixpoint setitem (data : t) (key : string) (v : Record.t) : t :=
  match data with
  | [] => [(key, v)]
  | (k, r) :: data' =>
      if String.eqb k key then (k, v) :: data'
      else (k, r) :: setitem data' key v
  end.

(** [data.get(key)] *)
Fixpoint get (data : t) (key : string) : option Record.t :=
  match data with
  | [] => None
  | (k, r) :: data' => if String.eqb k key then Some r else get data' key
  end.

(** [key in data] *)
Definition contains (data : t) (key : string) : bool :=
  match get data key with Some _ => true | None => false end.

(** [del data[key]] *)
Fixpoint delitem (data : t) (key : string) : t :=
  match data with
  | [] => []
  | (k, r) :: data' =>
      if String.eqb k key then data' else (k, r) :: delitem data' key
  end.

(** [data.values()] *)
Definition values (data : t) : list Record.t := map snd data.

(** [data.keys()] *)
Definition keys (data : t) : list string := map fst data.

Definition add_record (self : t) (record : Record.t) : t :=
  setitem self (Field.value (Record.name record)) record.

Definition find (self : t) (name : string) : option Record.t :=
  get self name.

Definition delete (self : t) (name : string) : t :=
  if contains self name then delitem self name else self.

(** Finds the next specified weekday after start_date. *)
Definition find_next_weekday (start_date : date) (weekday : Z)
  : result date :=
  let days_ahead := weekday - Datetime.weekday start_date in
  let days_ahead := if days_ahead <=? 0 then days_ahead + 7 else days_ahead in
  add_days start_date days_ahead.

(** Moves birthday to Monday if it falls on a weekend. *)
Definition adjust_for_weekend (birthday : date) : result date :=
  if 5 <=? Datetime.weekday birthday then find_next_weekday birthday 0
  else Ok birthday.

(** An element of the returned list: [{"name": ..., "birthday": ...}]. *)
Record congratulation : Type :=
  mk_congratulation { name : string; birthday : string }.

(** The [for] loop over [self.data.values()]; [today] is what
    [date.today()] returned. *)
Fixpoint upcoming_loop (today : date) (days : Z) (records : list Record.t)
  (upcoming_birthdays : list congratulation) : result (list congratulation) :=
  match records with
  | [] => Ok upcoming_birthdays
  | record :: records' =>
      match Record.birthday record with
      | None => upcoming_loop today days records' upcoming_birthdays
      | Some b =>
          birthday_this_year <- replace_year (Field.value b) (year today) ;;
          birthday_this_year <-
            (if lt birthday_this_year today
             then replace_year (Field.value b) (year today + 1)
             else Ok birthday_this_year) ;;
          if (0 <=? sub_days birthday_this_year today)
             && (sub_days birthday_this_year today <=? days)
          then
            birthday_this_year <- adjust_for_weekend birthday_this_year ;;
            let congratulation_date_str := strftime_dmY birthday_this_year in
            upcoming_loop today days records'
              (upcoming_birthdays
               ++ [mk_congratulation (Field.value (Record.name record))
                     congratulation_date_str])
          else upcoming_loop today days records' upcoming_birthdays
      end
  end.

Definition get_upcoming_birthdays (today : date) (self : t) (days : Z)
  : result (list congratulation) :=
  upcoming_loop today days (values self) [].

(** [str(self)] *)
Definition __str__ (self : t) : string :=
  Builtins.join Builtins.newline (map Record.__str__ (values self)).

End AddressBook.

(** ** The properties the specification states, in its own words *)

Module Spec.

Import Field.

(** "Exactly 10 decimal-digit characters". *)
Definition ten_decimal_digits (raw : string) : bool :=
  (String.length raw =? 10)%nat && all_chars re_digit raw.

(** Exactly 10 characters, each one a digit for [str.isdigit]. *)
Definition ten_isdigit_chars (raw : string) : bool :=
  (String.length raw =? 10)%nat && all_chars isdigit_char raw.

(** Every character is below U+0080. *)
Definition ascii_only (raw : string) : bool :=
  all_chars (fun c => code c <? 128) raw.

(** "day.month.year with a 2-digit day, a 2-digit month, a 4-digit year,
    and denotes a real calendar date": the text of [dt] is [raw]. *)
Definition strict_text (raw : string) (dt : date) : Prop :=
  raw = (zfill 2 (day dt) ++ "." ++ zfill 2 (month dt) ++ "."
         ++ zfill 4 (year dt))%string
  /\ valid dt.

(** The day as the pattern takes it: two digits (01..31), one digit
    (1..9), or a blank and one digit. *)
Inductive day_text : string -> Z -> Prop :=
| day_two_digits (d : Z) : 1 <= d <= 31 -> day_text (zfill 2 d) d
| day_one_digit (d : Z) :
    1 <= d <= 9 -> day_text (String (digit_char d) "") d
| day_blank_digit (d : Z) :
    1 <= d <= 9 -> day_text (String " " (String (digit_char d) "")) d.

(** The month: two digits (01..12) or one digit (1..9). *)
Inductive month_text : string -> Z -> Prop :=
| month_two_digits (m : Z) : 1 <= m <= 12 -> month_text (zfill 2 m) m
| month_one_digit (m : Z) :
    1 <= m <= 9 -> month_text (String (digit_char m) "") m.

(** [raw] is day.month.year, the year on four digits, and [dt] is the real
    calendar date it denotes. *)
Definition birthday_text (raw : string) (dt : date) : Prop :=
  exists ds ms : string,
    raw = (ds ++ "." ++ ms ++ "." ++ zfill 4 (year dt))%string
    /\ day_text ds (day dt) /\ month_text ms (month dt) /\ valid dt.

(** This year's month/day of a birthday. *)
Definition this_year_occurrence (today b : date) : date :=
  mkdate (year today) (month b) (day b).

(** The occurrence: this year's, advanced by one year when it falls
    strictly before today. *)
Definition occurrence (today b : date) : date :=
  if toordinal (this_year_occurrence today b) <? toordinal today
  then mkdate (year today + 1) (month b) (day b)
  else this_year_occurrence today b.

(** The occurrence falls within [[today, today + days]], both ends
    included. *)
Definition in_window (today : date) (days : Z) (occ : date) : bool :=
  (toordinal today <=? toordinal occ)
  && (toordinal occ <=? toordinal today + days).

Definition selected (today : date) (days : Z) (record : Record.t) : bool :=
  match Record.birthday record with
  | None => false
  | Some b => in_window today days (occurrence today (value b))
  end.

(** [shifted] is the date [k] days after [d]. *)
Definition days_later (k : Z) (d shifted : date) : Prop :=
  valid shifted /\ toordinal shifted = toordinal d + k.

(** Business-day policy: Saturday -> +2 days, Sunday -> +1 day, a weekday
    is kept. *)
Definition weekend_shift (occ shifted : date) : Prop :=
  (weekday occ = 5 -> days_later 2 occ shifted /\ weekday shifted = 0)
  /\ (weekday occ = 6 -> days_later 1 occ shifted /\ weekday shifted = 0)
  /\ (weekday occ < 5 -> shifted = occ).

(** What [get_upcoming_birthdays] emits for a selected record. *)
Definition emitted (today : date) (record : Record.t)
  (c : AddressBook.congratulation) : Prop :=
  AddressBook.name c = value (Record.name record)
  /\ exists (b : Birthday.t) (shifted : date),
      Record.birthday record = Some b
      /\ weekend_shift (occurrence today (value b)) shifted
      /\ AddressBook.birthday c
         = (zfill 2 (day shifted) ++ "." ++ zfill 2 (month shifted) ++ "."
            ++ zfill 4 (year shifted))%string.

(** [_month_day n leap] is a month and a day of it, [n] days after
    January 1st. *)
Definition month_day_ok (leap : bool) (n : Z) : bool :=
  let '(m, d) := _month_day n leap in
  (1 <=? m) && (m <=? 12) && (1 <=? d)
  && (d <=? (if (m =? 2) && leap then 29 else index _DAYS_IN_MONTH m))
  && (index _DAYS_BEFORE_MONTH m + (if (2 <? m) && leap then 1 else 0) + d
      =? n + 1).

(** A birthday on February 29. *)
Definition leap_day (b : date) : Prop := month b = 2 /\ day b = 29.

(** The year the query moves a February 29 birthday to has no February 29:
    the current year, or the next year after the wrap. *)
Definition leap_day_target_missing (today : date) : bool :=
  negb (_is_leap (year today))
  || (lt (mkdate (year today) 2 29) today
      && negb (_is_leap (year today + 1))).

End Spec.

(** ** Sample data *)

Module Sample.

Import Field.

Definition record (name : string) (phones : list string)
  (birthday : option date) : Record.t :=
  Record.mk (mk name) (map mk phones) (option_map mk birthday).

(** Ten times U+00B2, superscript two. *)
Definition superscript_twos : string :=
  let c := "178"%char in
  String c (String c (String c (String c (String c
  (String c (String c (String c (String c (String c "")))))))))%string.

(** Wednesday, 11 June 2025. *)
Definition wednesday : date := mkdate 2025 6 11.

Definition ann : Record.t := record "Ann" [] (Some (mkdate 1990 6 14)).
Definition bob : Record.t := record "Bob" [] (Some (mkdate 1990 6 18)).
Definition cid : Record.t := record "Cid" [] (Some (mkdate 1990 6 15)).
Definition dan : Record.t := record "Dan" ["5551234567"%string] None.
Definition eve : Record.t := record "Eve" [] (Some (mkdate 1990 6 10)).
Definition leo : Record.t := record "Leo" [] (Some (mkdate 2000 2 29)).

Definition book : AddressBook.t :=
  [("Ann"%string, ann); ("Bob"%string, bob); ("Cid"%string, cid);
   ("Dan"%string, dan); ("Eve"%string, eve)].

Definition leap_book : AddressBook.t :=
  [("Bob"%string, bob); ("Leo"%string, leo)].

Definition twins : Record.t :=
  record "Twins"
    ["1111111111"%string; "2222222222"%string; "1111111111"%string] None.

End Sample.

(** ** The command layer: [input_error], the handlers, [main] *)

Module Bot.

Import Builtins.

(** What a handler can raise: an exception of the records and the book, or
    one of the two it raises itself. *)
Inductive raised : Type :=
| Core (e : exception)
| IndexError
| KeyError.

(** A handler returns a text or raises. *)
Inductive outcome : Type :=
| Return (text : string)
| Throw (r : raised).

(** A handler gets the words after the command and the book, which it may
    change in place: the book after the call comes with the outcome. *)
Definition handler : Type :=
  list string -> AddressBook.t -> AddressBook.t * outcome.

(** Decorator for handling user input errors. *)
Definition input_error (func : handler) : handler :=
  fun args book =>
    let '(book', o) := func args book in
    match o with
    | Throw (Core (ValueError _)) =>
        (book', Return "Enter the required arguments for the command!")
    | Throw IndexError =>
        (book', Return "Enter the required arguments for the command!")
    | Throw KeyError => (book', Return "Contact not found!")
    | _ => (book', o)
    end.

(** [a, b = args] with the wrong number of words. *)
Definition unpack_error : raised :=
  Core (ValueError "wrong number of values to unpack").

(** Splits the input string into words, using a space as a separator. *)
Definition parse_input (user_input : string)
  : result (string * list string) :=
  match split user_input with
  | [] => Raise (ValueError "not enough values to unpack (expected at least 1, got 0)")
  | cmd :: args => Ok (lower (strip cmd), args)
  end.

(** The handlers as written, before [@input_error].  A record found in the
    book is the object the book holds under that name, so what a method
    does to it shows in the book: [AddressBook.setitem] puts the record
    after the call back under the name. *)
Module Func.

(** The [if phone: ...] part of [add_contact], [record] being held by
    [book] under [name]. *)
Definition add_contact_phone (name phone : string) (record : Record.t)
  (book : AddressBook.t) (message : string) : AddressBook.t * outcome :=
  if is_empty phone then (book, Return message)
  else
    let '(record', r) := Record.add_phone record phone in
    let book' := AddressBook.setitem book name record' in
    match r with
    | Ok _ => (book', Return message)
    | Raise (ValueError m) => (book', Return m)
    | Raise e => (book', Throw (Core e))
    end.

Definition add_contact : handler :=
  fun args book =>
    match args with
    | [name; phone] =>
        match AddressBook.find book name with
        | Some record =>
            add_contact_phone name phone record book "Contact updated."
        | None =>
            match Record.__init__ name with
            | Raise e => (book, Throw (Core e))
            | Ok record =>
                add_contact_phone name phone record
                  (AddressBook.add_record book record) "Contact added."
            end
        end
    | _ => (book, Throw unpack_error)
    end.

Definition change_contact : handler :=
  fun args book =>
    match args with
    | [name; old_phone; new_phone] =>
        match AddressBook.find book name with
        | Some record =>
            let '(record', r) :=
              Record.edit_phone record old_phone new_phone in
            let book' := AddressBook.setitem book name record' in
            match r with
            | Ok _ => (book', Return "Contact updated.")
            | Raise (ValueError m) => (book', Return m)
            | Raise e => (book', Throw (Core e))
            end
        | None => (book, Throw KeyError)
        end
    | _ => (book, Throw unpack_error)
    end.

Definition show_phone : handler :=
  fun args book =>
    if 1 <? Z.of_nat (List.length args) then (book, Throw IndexError)
    else
      match args with
      | [] => (book, Throw IndexError)
      | name :: _ =>
          match AddressBook.find book name with
          | Some record =>
              let contacts :=
                join ", " (map Field.value (Record.phones record)) in
              (book,
               Return ("Contact phone numbers " ++ name ++ " - " ++ contacts
                       ++ "."))
          | None => (book, Throw KeyError)
          end
      end.

Definition show_all : handler :=
  fun args book =>
    if 0 <? Z.of_nat (List.length args) then (book, Throw IndexError)
    else
      match book with
      | [] => (book, Return "No contacts found!")
      | _ =>
          (book,
           Return (join newline (map Record.__str__ (AddressBook.values book))))
      end.

Definition add_birthday : handler :=
  fun args book =>
    match args with
    | [name; birthday] =>
        match AddressBook.find book name with
        | Some record =>
            let '(record', r) := Record.add_birthday record birthday in
            let book' := AddressBook.setitem book name record' in
            match r with
            | Ok _ => (book', Return "Birthday added.")
            | Raise (ValueError m) => (book', Return m)
            | Raise e => (book', Throw (Core e))
            end
        | None => (book, Throw KeyError)
        end
    | _ => (book, Throw unpack_error)
    end.

Definition show_birthday : handler :=
  fun args book =>
    if 1 <? Z.of_nat (List.length args) then (book, Throw IndexError)
    else
      match args with
      | [] => (book, Throw IndexError)
      | name :: _ =>
          match AddressBook.find book name with
          | Some record =>
              match Record.birthday record with
              | Some b =>
                  (book,
                   Return ("Birthday of " ++ name ++ " is "
                           ++ strftime_dmY (Field.value b) ++ "."))
              | None =>
                  (book, Return ("No birthday recorded for " ++ name ++ "!"))
              end
          | None => (book, Throw KeyError)
          end
      end.

(** [today] is what [date.today()] returns during the call. *)
Definition birthdays (today : date) : handler :=
  fun args book =>
    if 0 <? Z.of_nat (List.length args) then (book, Throw IndexError)
    else
      match AddressBook.get_upcoming_birthdays today book 7 with
      | Raise e => (book, Throw (Core e))
      | Ok [] => (book, Return "No birthdays for the next 7 days!")
      | Ok records =>
          (book,
           Return
             (join newline
                (map (fun record =>
                        ("Name: " ++ AddressBook.name record ++ ", birthday: "
                         ++ AddressBook.birthday record)%string)
                   records)))
      end.

End Func.

Definition add_contact : handler := input_error Func.add_contact.
Definition change_contact : handler := input_error Func.change_contact.
Definition show_phone : handler := input_error Func.show_phone.
Definition show_all : handler := input_error Func.show_all.
Definition add_birthday : handler := input_error Func.add_birthday.
Definition show_birthday : handler := input_error Func.show_birthday.
Definition birthdays (today : date) : handler :=
  input_error (Func.birthdays today).

(** How [main] ends: it leaves the loop, an exception goes through it, or
    [input()] finds no line left. *)
Inductive ending : Type :=
| Exit
| Crash (r : raised)
| EOFError.

(** A run of [main]: the book at the end, the lines printed and the
    ending. *)
Record session : Type :=
  mk_session { final_book : AddressBook.t; printed : list string;
               ended : ending }.

(** One command after another; [(today, line)] is a line that [input()]
    returns and the date of that moment. *)
Fixpoint main_loop (inputs : list (date * string)) (book : AddressBook.t)
  (out : list string) : session :=
  match inputs with
  | [] => mk_session book out EOFError
  | (today, user_input) :: inputs' =>
      match parse_input user_input with
      | Raise e => mk_session book out (Crash (Core e))
      | Ok (command, args) =>
          let run (h : handler) :=
            match h args book with
            | (book', Return text) => main_loop inputs' book' (out ++ [text])
            | (book', Throw r) => mk_session book' out (Crash r)
            end in
          if String.eqb command "close" || String.eqb command "exit" then
            mk_session book (out ++ ["Good bye!"%string]) Exit
          else if String.eqb command "hello" then
            main_loop inputs' book (out ++ ["How can I help you?"%string])
          else if String.eqb command "add" then run add_contact
          else if String.eqb command "change" then run change_contact
          else if String.eqb command "phone" then run show_phone
          else if String.eqb command "all" then run show_all
          else if String.eqb command "add-birthday" then run add_birthday
          else if String.eqb command "show-birthday" then run show_birthday
          else if String.eqb command "birthdays" then run (birthdays today)
          else main_loop inputs' book (out ++ ["Invalid command."%string])
      end
  end.

Definition main (inputs : list (date * string)) : session :=
  main_loop inputs [] ["Welcome to the assistant bot!"%string].

End Bot.

(** ** Invariants of the records and of the book *)

Module Inv.

(** A phone as [Phone] accepts it. *)
Definition phone_ok (p : Phone.t) : Prop :=
  Spec.ten_isdigit_chars (Field.value p) = true.

(** Every phone of the record is one [Phone] accepts, and its birthday, if
    set, is a real date. *)
Definition record_ok (r : Record.t) : Prop :=
  Forall phone_ok (Record.phones r)
  /\ (forall b, Record.birthday r = Some b -> valid (Field.value b)).

(** No name is held twice, every record is held under its own name, and
    every record is as above. *)
Definition book_ok (book : AddressBook.t) : Prop :=
  NoDup (AddressBook.keys book)
  /\ Forall (fun item => Field.value (Record.name (snd item)) = fst item
                         /\ record_ok (snd item)) book.

(** A line with no word: empty or white space only. *)
Definition blank (line : string) : Prop := Builtins.split line = [].

(** A line whose first word is close or exit, in any case of letters. *)
Definition exit_line (line : string) : Prop :=
  exists w args,
    Builtins.split line = w :: args
    /\ (Builtins.lower w = "close"%string \/ Builtins.lower w = "exit"%string).

(** A word as [split] yields it: not empty and without white space. *)
Definition word (w : string) : Prop :=
  w <> EmptyString
  /\ Str.all_chars (fun c => negb (Builtins.isspace_char c)) w = true.

(** A reported date, [days] being the window asked for: the text of a real
    date on a weekday, not before today and at most two days past the
    window. *)
Definition reported (today : date) (days : Z)
  (c : AddressBook.congratulation) : Prop :=
  exists d,
    AddressBook.birthday c = strftime_dmY d /\ valid d /\ weekday d < 5
    /\ toordinal today <= toordinal d <= toordinal today + days + 2.

End Inv.

(** * Proofs *)

(** ** Tactics *)

Ltac table_values :=
  repeat match goal with
  | |- context [index ?l ?k] =>
      let v := eval vm_compute in (index l k) in change (index l k) with v
  | |- context [?a =? ?b] =>
      let v := eval vm_compute in (a =? b) in
      match v with true => idtac | false => idtac end;
      change (a =? b) with v
  | |- context [?a <? ?b] =>
      let v := eval vm_compute in (a <? b) in
      match v with true => idtac | false => idtac end;
      change (a <? b) with v
  end;
  cbv beta iota delta [andb].

Ltac months m :=
  let H := fresh in
  assert (H : m = 1 \/ m = 2 \/ m = 3 \/ m = 4 \/ m = 5 \/ m = 6 \/ m = 7
              \/ m = 8 \/ m = 9 \/ m = 10 \/ m = 11 \/ m = 12) by lia;
  repeat (destruct H as [H | H]); subst m.

(** Case analysis on an integer of a known range. *)
Ltac enum d lo hi tac :=
  let rec go k :=
    let b := eval vm_compute in (k <=? hi) in
    lazymatch b with
    | true =>
        destruct (Z.eq_dec d k) as [-> | ?];
        [tac | let k' := eval vm_compute in (k + 1) in go k']
    | false => exfalso; lia
    end
  in go lo.

Ltac codes :=
  repeat match goal with
  | H : context [code (Ascii ?a ?b ?c ?d ?e ?f ?g ?h)] |- _ =>
      let v := eval vm_compute in (code (Ascii a b c d e f g h)) in
      change (code (Ascii a b c d e f g h)) with v in H
  end.

(** ** Calendar arithmetic *)

(** Bounded checks by enumeration. *)
Lemma forall_below (p : Z -> bool) (k : nat) :
  forallb (fun i => p (Z.of_nat i)) (seq 0 k) = true ->
  forall n, 0 <= n < Z.of_nat k -> p n = true.
Proof.
  intros H n Hn.
  rewrite forallb_forall in H.
  specialize (H (Z.to_nat n)).
  rewrite Z2Nat.id in H by lia.
  apply H, in_seq. lia.
Qed.

Lemma month_day_spec (leap : bool) (n : Z) :
  0 <= n < 365 + (if leap then 1 else 0) ->
  Spec.month_day_ok leap n = true.
Proof.
  intros Hn. destruct leap.
  - apply (forall_below (Spec.month_day_ok true) 366); [vm_compute; reflexivity | lia].
  - apply (forall_below (Spec.month_day_ok false) 365); [vm_compute; reflexivity | lia].
Qed.

Lemma days_before_year_decompose (a b c e : Z) :
  0 <= a -> 0 <= b <= 3 -> 0 <= c <= 24 -> 0 <= e <= 3 ->
  _days_before_year (400 * a + 100 * b + 4 * c + e + 1)
  = 146097 * a + 36524 * b + 1461 * c + 365 * e.
Proof.
  intros Ha Hb Hc He. unfold _days_before_year.
  replace (400 * a + 100 * b + 4 * c + e + 1 - 1)
    with (400 * a + 100 * b + 4 * c + e) by lia.
  Z.to_euclidean_division_equations. lia.
Qed.

Lemma is_leap_decompose (a b c e : Z) :
  0 <= a -> 0 <= b <= 3 -> 0 <= c <= 24 -> 0 <= e <= 3 ->
  _is_leap (400 * a + 100 * b + 4 * c + e + 1)
  = (e =? 3) && (negb (c =? 24) || (b =? 3)).
Proof.
  intros Ha Hb Hc He. unfold _is_leap.
  apply eq_iff_eq_true.
  rewrite !andb_true_iff, !orb_true_iff, !negb_true_iff, !Z.eqb_eq,
    !Z.eqb_neq.
  Z.to_euclidean_division_equations. lia.
Qed.


Lemma ord2ymd_spec (n : Z) :
  1 <= n <= _MAXORDINAL ->
  let '(y, m, d) := _ord2ymd n in
  MINYEAR <= y <= MAXYEAR /\ 1 <= m <= 12 /\ 1 <= d <= _days_in_month y m
  /\ _ymd2ord y m d = n.
Proof.
  intros Hn. unfold _ord2ymd, _MAXORDINAL, _DI400Y, _DI100Y, _DI4Y in *.
  cbv zeta.
  set (a := (n - 1) / 146097).
  set (r1 := (n - 1) mod 146097).
  set (b := r1 / 36524).
  set (r2 := r1 mod 36524).
  set (c := r2 / 1461).
  set (r3 := r2 mod 1461).
  set (e := r3 / 365).
  set (r4 := r3 mod 365).
  assert (Ha : n - 1 = 146097 * a + r1 /\ 0 <= r1 < 146097 /\ 0 <= a)
    by (subst a r1; Z.to_euclidean_division_equations; lia).
  assert (Hb : r1 = 36524 * b + r2 /\ 0 <= r2 < 36524 /\ 0 <= b <= 4)
    by (subst b r2; Z.to_euclidean_division_equations; lia).
  assert (Hc : r2 = 1461 * c + r3 /\ 0 <= r3 < 1461 /\ 0 <= c <= 24)
    by (subst c r3; Z.to_euclidean_division_equations; lia).
  assert (He : r3 = 365 * e + r4 /\ 0 <= r4 < 365 /\ 0 <= e <= 4)
    by (subst e r4; Z.to_euclidean_division_equations; lia).
  clearbody a r1 b r2 c r3 e r4.
  unfold MINYEAR, MAXYEAR.
  destruct (e =? 4) eqn:E4; [apply Z.eqb_eq in E4 |
    apply Z.eqb_neq in E4; destruct (b =? 4) eqn:B4;
    [apply Z.eqb_eq in B4 | apply Z.eqb_neq in B4]]; simpl orb; cbv iota.
  - (* the last day of a leap year *)
    assert (Hb3 : b <= 3) by lia.
    replace (a * 400 + 1 + (b * 100 + c * 4 + e) - 1)
      with (400 * a + 100 * b + 4 * c + 3 + 1) by lia.
    assert (L : _is_leap (400 * a + 100 * b + 4 * c + 3 + 1) = true).
    { rewrite is_leap_decompose by lia.
      rewrite Z.eqb_refl. simpl.
      destruct (Z.eqb_spec c 24); destruct (Z.eqb_spec b 3); simpl;
        try reflexivity. lia. }
    unfold _ymd2ord, _days_in_month, _days_before_month.
    rewrite L, days_before_year_decompose by lia.
    change ((12 =? 2) && true) with false.
    change ((2 <? 12) && true) with true.
    change (index _DAYS_IN_MONTH 12) with 31.
    change (index _DAYS_BEFORE_MONTH 12) with 334.
    cbv iota. lia.
  - (* the last day of a 400-year cycle *)
    replace (a * 400 + 1 + (b * 100 + c * 4 + e) - 1)
      with (400 * a + 100 * 3 + 4 * 24 + 3 + 1) by lia.
    assert (L : _is_leap (400 * a + 100 * 3 + 4 * 24 + 3 + 1) = true)
      by (rewrite is_leap_decompose by lia; reflexivity).
    unfold _ymd2ord, _days_in_month, _days_before_month.
    rewrite L, days_before_year_decompose by lia.
    change ((12 =? 2) && true) with false.
    change ((2 <? 12) && true) with true.
    change (index _DAYS_IN_MONTH 12) with 31.
    change (index _DAYS_BEFORE_MONTH 12) with 334.
    cbv iota. lia.
  - replace (a * 400 + 1 + (b * 100 + c * 4 + e))
      with (400 * a + 100 * b + 4 * c + e + 1) by lia.
    set (leap := (e =? 3) && (negb (c =? 24) || (b =? 3))).
    assert (L : _is_leap (400 * a + 100 * b + 4 * c + e + 1) = leap)
      by (apply is_leap_decompose; lia).
    assert (Hr : 0 <= r4 < 365 + (if leap then 1 else 0))
      by (destruct leap; lia).
    pose proof (month_day_spec leap r4 Hr) as M.
    unfold Spec.month_day_ok in M.
    destruct (_month_day r4 leap) as [m d].
    unfold _ymd2ord, _days_in_month, _days_before_month.
    rewrite L, days_before_year_decompose by lia.
    rewrite !andb_true_iff, !Z.leb_le, Z.eqb_eq in M.
    lia.
Qed.

Lemma days_before_year_succ (y : Z) :
  _days_before_year (y + 1)
  = _days_before_year y + 365 + (if _is_leap y then 1 else 0).
Proof.
  unfold _days_before_year, _is_leap. cbv zeta.
  replace (y + 1 - 1) with y by lia.
  destruct (Z.eqb_spec (y mod 4) 0); destruct (Z.eqb_spec (y mod 100) 0);
    destruct (Z.eqb_spec (y mod 400) 0); simpl;
    Z.to_euclidean_division_equations; lia.
Qed.

Lemma days_before_year_mono (y1 y2 : Z) :
  y1 <= y2 -> _days_before_year y1 <= _days_before_year y2.
Proof.
  intros H. unfold _days_before_year. cbv zeta.
  Z.to_euclidean_division_equations. lia.
Qed.

Lemma day_of_year_bound (y m d : Z) :
  1 <= m <= 12 -> 1 <= d <= _days_in_month y m ->
  1 <= _days_before_month y m + d
    <= 365 + (if _is_leap y then 1 else 0).
Proof.
  intros Hm. unfold _days_in_month, _days_before_month.
  destruct (_is_leap y); months m; table_values; lia.
Qed.

Lemma month_order (y m1 m2 d1 : Z) :
  1 <= m1 -> m1 < m2 -> m2 <= 12 -> d1 <= _days_in_month y m1 ->
  _days_before_month y m1 + d1 <= _days_before_month y m2.
Proof.
  intros H1 H12 H2. unfold _days_in_month, _days_before_month.
  destruct (_is_leap y); months m1; months m2; table_values; lia.
Qed.

Lemma toordinal_lt (a b : date) :
  valid a -> valid b -> lt a b = true -> toordinal a < toordinal b.
Proof.
  unfold valid, lt, toordinal, _ymd2ord, MINYEAR, MAXYEAR.
  destruct a as [y1 m1 d1], b as [y2 m2 d2]; simpl.
  intros (Hy1 & Hm1 & Hd1) (Hy2 & Hm2 & Hd2) H.
  repeat rewrite ?orb_true_iff, ?andb_true_iff, ?Z.ltb_lt, ?Z.eqb_eq in H.
  pose proof (day_of_year_bound y1 m1 d1 Hm1 Hd1) as B1.
  pose proof (day_of_year_bound y2 m2 d2 Hm2 Hd2) as B2.
  destruct H as [H | (E & [H | (E' & H)])]; subst.
  - pose proof (days_before_year_succ y1).
    pose proof (days_before_year_mono (y1 + 1) y2). lia.
  - pose proof (month_order y2 m1 m2 d1). lia.
  - lia.
Qed.

Lemma lt_toordinal (a b : date) :
  valid a -> valid b -> lt a b = (toordinal a <? toordinal b).
Proof.
  intros Ha Hb.
  destruct (lt a b) eqn:E.
  - symmetry. apply Z.ltb_lt. now apply toordinal_lt.
  - symmetry. apply Z.ltb_ge.
    destruct (lt b a) eqn:E'.
    + apply toordinal_lt in E'; auto. lia.
    + assert (a = b).
      { unfold lt in E, E'. destruct a as [y1 m1 d1], b as [y2 m2 d2].
        simpl in *.
        repeat rewrite ?orb_false_iff, ?andb_false_iff, ?Z.ltb_ge,
          ?Z.eqb_neq in E, E'.
        f_equal; lia. }
      subst. lia.
Qed.

Lemma date_new_ok (y m d : Z) (dt : date) :
  date_new y m d = Ok dt <-> dt = mkdate y m d /\ valid dt.
Proof.
  unfold date_new, valid.
  destruct (Z.leb_spec MINYEAR y); destruct (Z.leb_spec y MAXYEAR);
    destruct (Z.leb_spec 1 m); destruct (Z.leb_spec m 12);
    destruct (Z.leb_spec 1 d); destruct (Z.leb_spec d (_days_in_month y m));
    simpl; split;
    try (intros [= <-]; simpl; repeat split; assumption);
    try discriminate;
    try (intros [-> V]; simpl in V; solve [reflexivity | lia]).
Qed.

Lemma replace_year_ok (b : date) (y : Z) (dt : date) :
  replace_year b y = Ok dt -> dt = mkdate y (month b) (day b) /\ valid dt.
Proof. unfold replace_year. apply date_new_ok. Qed.

Lemma fromordinal_spec (n : Z) :
  1 <= n <= _MAXORDINAL ->
  exists dt, fromordinal n = Ok dt /\ valid dt /\ toordinal dt = n.
Proof.
  intros Hn. pose proof (ord2ymd_spec n Hn) as H. unfold fromordinal.
  destruct (_ord2ymd n) as [[y m] d]. destruct H as (Hy & Hm & Hd & Ho).
  exists (mkdate y m d). split; [| split].
  - apply date_new_ok. repeat split; simpl; lia.
  - repeat split; simpl; lia.
  - exact Ho.
Qed.

Lemma add_days_ok (self : date) (k : Z) (dt : date) :
  add_days self k = Ok dt ->
  valid dt /\ toordinal dt = toordinal self + k.
Proof.
  unfold add_days. cbv zeta.
  destruct (Z.ltb_spec 0 (toordinal self + k)); simpl; [| discriminate].
  destruct (Z.leb_spec (toordinal self + k) _MAXORDINAL); [| discriminate].
  destruct (fromordinal_spec (toordinal self + k)) as (dt' & E & V & O);
    [lia |].
  rewrite E. intros [= <-]. auto.
Qed.

Lemma weekday_range (d : date) : 0 <= weekday d < 7.
Proof. unfold weekday. apply Z.mod_pos_bound. lia. Qed.

Lemma next_monday (o : Z) :
  (o + (0 - (o + 6) mod 7 + 7) + 6) mod 7 = 0.
Proof.
  replace (o + (0 - (o + 6) mod 7 + 7) + 6)
    with (o + 6 - (o + 6) mod 7 + 1 * 7) by lia.
  rewrite Z_mod_plus_full, Zminus_mod_idemp_r, Z.sub_diag. reflexivity.
Qed.

Lemma adjust_for_weekend_ok (occ shifted : date) :
  AddressBook.adjust_for_weekend occ = Ok shifted ->
  Spec.weekend_shift occ shifted.
Proof.
  unfold AddressBook.adjust_for_weekend, AddressBook.find_next_weekday,
    Spec.weekend_shift, Spec.days_later.
  cbv zeta. pose proof (weekday_range occ) as R.
  destruct (Z.leb_spec 5 (weekday occ)) as [W | W].
  - destruct (Z.leb_spec (0 - weekday occ) 0); [| lia].
    intros A. apply add_days_ok in A. destruct A as [V O].
    assert (M : weekday shifted = 0).
    { unfold weekday in *. rewrite O. apply next_monday. }
    split; [| split]; intros E;
      [split; [split; [exact V | lia] | exact M] ..| lia].
  - intros [= <-]. split; [| split]; intros E; [lia | lia | reflexivity].
Qed.

(** ** Texts of numbers and the date pattern *)

Lemma code_range (c : ascii) : 0 <= code c < 256.
Proof.
  unfold code. pose proof (N_ascii_bounded c). lia.
Qed.

Lemma digit_char_code (c : ascii) : digit_char (code c - 48) = c.
Proof.
  unfold digit_char, code.
  replace (48 + (Z.of_N (N_of_ascii c) - 48)) with (Z.of_N (N_of_ascii c))
    by lia.
  rewrite N2Z.id. apply ascii_N_embedding.
Qed.

Lemma code_digit_char (x : Z) : 0 <= x <= 9 -> code (digit_char x) = 48 + x.
Proof.
  intros H. unfold digit_char, code.
  rewrite N_ascii_embedding by lia. lia.
Qed.

Lemma in_range_spec (lo hi c : ascii) :
  in_range lo hi c = true <-> code lo <= code c <= code hi.
Proof. unfold in_range. rewrite andb_true_iff, !Z.leb_le. tauto. Qed.

Lemma re_digit_spec (c : ascii) : re_digit c = true <-> 48 <= code c <= 57.
Proof. unfold re_digit. rewrite in_range_spec. reflexivity. Qed.

Lemma re_digit_digit_char (x : Z) :
  0 <= x <= 9 -> re_digit (digit_char x) = true.
Proof. intros H. rewrite re_digit_spec, code_digit_char; lia. Qed.

Lemma is_char_spec (c a : ascii) : is_char c a = true <-> a = c.
Proof. unfold is_char. apply Ascii.eqb_eq. Qed.


Lemma zfill2 (n : Z) :
  zfill 2 n
  = String (digit_char ((n / 10) mod 10)) (String (digit_char (n mod 10)) "").
Proof. reflexivity. Qed.

Lemma zfill4 (n : Z) :
  zfill 4 n
  = String (digit_char ((n / 10 / 10 / 10) mod 10))
      (String (digit_char ((n / 10 / 10) mod 10))
         (String (digit_char ((n / 10) mod 10))
            (String (digit_char (n mod 10)) ""))).
Proof. reflexivity. Qed.

Lemma mod10_digit (n : Z) : re_digit (digit_char (n mod 10)) = true.
Proof. apply re_digit_digit_char. pose proof (Z.mod_pos_bound n 10). lia. Qed.

Lemma mod10_code (n : Z) : code (digit_char (n mod 10)) - 48 = n mod 10.
Proof.
  rewrite code_digit_char; [lia |]. pose proof (Z.mod_pos_bound n 10). lia.
Qed.

Lemma lstrip_digit (c : ascii) (s : string) :
  re_digit c = true -> lstrip (String c s) = String c s.
Proof.
  intros H. destruct c as [[] [] [] [] [] [] [] []];
    solve [reflexivity | discriminate H].
Qed.

Lemma int_digits2 (a b : ascii) :
  re_digit a = true -> re_digit b = true ->
  int (String a (String b "")) = Ok (10 * (code a - 48) + (code b - 48)).
Proof.
  intros Ha Hb. unfold int. rewrite lstrip_digit by assumption.
  simpl. rewrite Ha, Hb. f_equal; lia.
Qed.

Lemma int_digit1 (a : ascii) :
  re_digit a = true -> int (String a "") = Ok (code a - 48).
Proof.
  intros Ha. unfold int. rewrite lstrip_digit by assumption.
  simpl. rewrite Ha. f_equal; lia.
Qed.

Lemma int_blank_digit (a : ascii) :
  re_digit a = true -> int (String " " (String a "")) = Ok (code a - 48).
Proof.
  intros Ha. unfold int.
  change (lstrip (String " " (String a ""))) with (lstrip (String a "")).
  rewrite lstrip_digit by assumption.
  simpl. rewrite Ha. f_equal; lia.
Qed.

Lemma int_zfill2 (n : Z) : 0 <= n <= 99 -> int (zfill 2 n) = Ok n.
Proof.
  intros H. rewrite zfill2, int_digits2 by apply mod10_digit.
  rewrite !mod10_code. f_equal; Z.to_euclidean_division_equations; lia.
Qed.

Lemma int_zfill4 (n : Z) : 0 <= n <= 9999 -> int (zfill 4 n) = Ok n.
Proof.
  intros H. rewrite zfill4. unfold int.
  rewrite lstrip_digit by apply mod10_digit.
  cbn [int_digits]. rewrite !mod10_digit, !mod10_code. f_equal.
  Z.to_euclidean_division_equations. lia.
Qed.

Lemma int_one_digit (n : Z) :
  0 <= n <= 9 -> int (String (digit_char n) "") = Ok n.
Proof.
  intros H. rewrite int_digit1 by now apply re_digit_digit_char.
  rewrite code_digit_char by lia. f_equal; lia.
Qed.

Lemma two_digits_zfill (a b : ascii) :
  re_digit a = true -> re_digit b = true ->
  String a (String b "") = zfill 2 (10 * (code a - 48) + (code b - 48)).
Proof.
  intros Ha Hb. apply re_digit_spec in Ha, Hb. rewrite zfill2.
  replace ((10 * (code a - 48) + (code b - 48)) / 10 mod 10)
    with (code a - 48) by (Z.to_euclidean_division_equations; lia).
  replace ((10 * (code a - 48) + (code b - 48)) mod 10)
    with (code b - 48) by (Z.to_euclidean_division_equations; lia).
  now rewrite !digit_char_code.
Qed.

Lemma four_digits_zfill (a b c d : ascii) :
  re_digit a = true -> re_digit b = true -> re_digit c = true ->
  re_digit d = true ->
  exists y, 0 <= y <= 9999
    /\ String a (String b (String c (String d ""))) = zfill 4 y.
Proof.
  intros Ha Hb Hc Hd. apply re_digit_spec in Ha, Hb, Hc, Hd.
  exists (1000 * (code a - 48) + 100 * (code b - 48) + 10 * (code c - 48)
          + (code d - 48)).
  split; [lia |]. rewrite zfill4.
  set (y := 1000 * (code a - 48) + 100 * (code b - 48) + 10 * (code c - 48)
          + (code d - 48)).
  replace (y / 10 / 10 / 10 mod 10) with (code a - 48)
    by (subst y; Z.to_euclidean_division_equations; lia).
  replace (y / 10 / 10 mod 10) with (code b - 48)
    by (subst y; Z.to_euclidean_division_equations; lia).
  replace (y / 10 mod 10) with (code c - 48)
    by (subst y; Z.to_euclidean_division_equations; lia).
  replace (y mod 10) with (code d - 48)
    by (subst y; Z.to_euclidean_division_equations; lia).
  now rewrite !digit_char_code.
Qed.

Lemma first_match_some {A B : Type} (k : A -> option B) (l : list A)
  (b : B) :
  first_match k l = Some b -> exists a, In a l /\ k a = Some b.
Proof.
  induction l as [| a l IH]; simpl; [discriminate |].
  destruct (k a) eqn:E.
  - intros [= <-]. exists a. auto.
  - intros H. destruct (IH H) as (a' & I & K). exists a'. auto.
Qed.

Lemma first_match_head {A B : Type} (k : A -> option B) (a : A)
  (l : list A) (b : B) :
  k a = Some b -> first_match k (a :: l) = Some b.
Proof. intros H. simpl. now rewrite H. Qed.

Lemma take2_in (p q : ascii -> bool) (s ds s1 : string) :
  In (ds, s1) (take2 p q s) ->
  exists a b, s = String a (String b s1) /\ ds = String a (String b "")
    /\ p a = true /\ q b = true.
Proof.
  destruct s as [| a [| b r]]; simpl; try tauto.
  destruct (p a) eqn:P; destruct (q b) eqn:Q; simpl; try tauto.
  intros [[= <- <-] | []]. exists a, b. auto.
Qed.

Lemma take1_in (p : ascii -> bool) (s ds s1 : string) :
  In (ds, s1) (take1 p s) ->
  exists a, s = String a s1 /\ ds = String a "" /\ p a = true.
Proof.
  destruct s as [| a r]; simpl; try tauto.
  destruct (p a) eqn:P; simpl; try tauto.
  intros [[= <- <-] | []]. exists a. auto.
Qed.

Lemma re_d_sound (s ds s1 : string) :
  In (ds, s1) (re_d s) ->
  exists d, s = (ds ++ s1)%string /\ Spec.day_text ds d /\ int ds = Ok d.
Proof.
  unfold re_d. intros H.
  repeat (apply in_app_or in H; destruct H as [H | H]);
    [apply take2_in in H; destruct H as (a & b & -> & -> & Pa & Pb) ..
    | apply take1_in in H; destruct H as (a & -> & -> & Pa)
    | apply take2_in in H; destruct H as (a & b & -> & -> & Pa & Pb)];
    try apply is_char_spec in Pa; try apply in_range_spec in Pa;
    try apply in_range_spec in Pb; try apply re_digit_spec in Pb;
    subst; codes.
  - assert (Da : re_digit "3" = true) by reflexivity.
    assert (Db : re_digit b = true) by (first [assumption | apply re_digit_spec; lia]).
    exists (10 * (code "3" - 48) + (code b - 48)).
    split; [reflexivity |]. split; [| now apply int_digits2].
    rewrite (two_digits_zfill _ _ Da Db). constructor.
    change (code "3") with 51. lia.
  - assert (Da : re_digit a = true) by (first [assumption | apply re_digit_spec; lia]).
    assert (Db : re_digit b = true) by (first [assumption | apply re_digit_spec; lia]).
    exists (10 * (code a - 48) + (code b - 48)).
    split; [reflexivity |]. split; [| now apply int_digits2].
    rewrite (two_digits_zfill _ _ Da Db). constructor.
    apply re_digit_spec in Db. lia.
  - assert (Da : re_digit "0" = true) by reflexivity.
    assert (Db : re_digit b = true) by (first [assumption | apply re_digit_spec; lia]).
    exists (10 * (code "0" - 48) + (code b - 48)).
    split; [reflexivity |]. split; [| now apply int_digits2].
    rewrite (two_digits_zfill _ _ Da Db). constructor.
    change (code "0") with 48. lia.
  - assert (Da : re_digit a = true) by (first [assumption | apply re_digit_spec; lia]).
    exists (code a - 48).
    split; [reflexivity |]. split; [| now apply int_digit1].
    rewrite <- (digit_char_code a) at 1. constructor. lia.
  - assert (Db : re_digit b = true) by (first [assumption | apply re_digit_spec; lia]).
    exists (code b - 48).
    split; [reflexivity |]. split; [| now apply int_blank_digit].
    rewrite <- (digit_char_code b) at 1. constructor. lia.
Qed.

Lemma re_m_sound (s ms s1 : string) :
  In (ms, s1) (re_m s) ->
  exists m, s = (ms ++ s1)%string /\ Spec.month_text ms m /\ int ms = Ok m.
Proof.
  unfold re_m. intros H.
  repeat (apply in_app_or in H; destruct H as [H | H]);
    [apply take2_in in H; destruct H as (a & b & -> & -> & Pa & Pb) ..
    | apply take1_in in H; destruct H as (a & -> & -> & Pa)];
    try apply is_char_spec in Pa; try apply in_range_spec in Pa;
    try apply in_range_spec in Pb; subst; codes.
  - assert (Da : re_digit "1" = true) by reflexivity.
    assert (Db : re_digit b = true) by (first [assumption | apply re_digit_spec; lia]).
    exists (10 * (code "1" - 48) + (code b - 48)).
    split; [reflexivity |]. split; [| now apply int_digits2].
    rewrite (two_digits_zfill _ _ Da Db). constructor.
    change (code "1") with 49. lia.
  - assert (Da : re_digit "0" = true) by reflexivity.
    assert (Db : re_digit b = true) by (first [assumption | apply re_digit_spec; lia]).
    exists (10 * (code "0" - 48) + (code b - 48)).
    split; [reflexivity |]. split; [| now apply int_digits2].
    rewrite (two_digits_zfill _ _ Da Db). constructor.
    change (code "0") with 48. lia.
  - assert (Da : re_digit a = true) by (first [assumption | apply re_digit_spec; lia]).
    exists (code a - 48).
    split; [reflexivity |]. split; [| now apply int_digit1].
    rewrite <- (digit_char_code a) at 1. constructor. lia.
Qed.

Lemma re_Y_sound (s ys s1 : string) :
  re_Y s = Some (ys, s1) ->
  exists y, 0 <= y <= 9999 /\ s = (ys ++ s1)%string /\ ys = zfill 4 y.
Proof.
  destruct s as [| a [| b [| c [| d r]]]]; simpl; try discriminate.
  destruct (re_digit a) eqn:Da; destruct (re_digit b) eqn:Db;
    destruct (re_digit c) eqn:Dc; destruct (re_digit d) eqn:Dd; simpl;
    try discriminate.
  intros [= <- <-].
  destruct (four_digits_zfill a b c d Da Db Dc Dd) as (y & Hy & E).
  exists y. auto.
Qed.

Lemma re_dot_sound (s r : string) :
  re_dot s = Some r -> s = String "." r.
Proof.
  destruct s as [| c s']; simpl; [discriminate |].
  destruct c as [[] [] [] [] [] [] [] []]; try discriminate.
  now intros [= ->].
Qed.

Lemma re_d_head (ds : string) (d : Z) (r : string) :
  Spec.day_text ds d ->
  exists tail, re_d (ds ++ String "." r) = (ds, String "."%char r) :: tail.
Proof.
  intros [d' H | d' H | d' H];
    enum d' 1 31 ltac:(solve [exfalso; lia | eexists; reflexivity]).
Qed.

Lemma re_m_head (ms : string) (m : Z) (r : string) :
  Spec.month_text ms m ->
  exists tail, re_m (ms ++ String "." r) = (ms, String "."%char r) :: tail.
Proof.
  intros [m' H | m' H]; enum m' 1 12 ltac:(solve [exfalso; lia | eexists; reflexivity]).
Qed.

Lemma re_Y_zfill (y : Z) : re_Y (zfill 4 y) = Some (zfill 4 y, EmptyString).
Proof. rewrite zfill4. cbn [re_Y]. now rewrite !mod10_digit. Qed.

Lemma int_day_text (ds : string) (d : Z) :
  Spec.day_text ds d -> int ds = Ok d.
Proof.
  intros [d' H | d' H | d' H].
  - apply int_zfill2. lia.
  - apply int_one_digit. lia.
  - rewrite int_blank_digit by (apply re_digit_digit_char; lia).
    rewrite code_digit_char by lia. f_equal; lia.
Qed.

Lemma int_month_text (ms : string) (m : Z) :
  Spec.month_text ms m -> int ms = Ok m.
Proof.
  intros [m' H | m' H].
  - apply int_zfill2. lia.
  - apply int_one_digit. lia.
Qed.

Lemma date_new_valid (dt : date) :
  valid dt -> date_new (year dt) (month dt) (day dt) = Ok dt.
Proof.
  intros V. unfold date_new. destruct V as (Vy & Vm & Vd).
  destruct dt as [y m d]; simpl in *.
  destruct (Z.leb_spec MINYEAR y); [| lia].
  destruct (Z.leb_spec y MAXYEAR); [| lia].
  destruct (Z.leb_spec 1 m); [| lia].
  destruct (Z.leb_spec m 12); [| lia].
  destruct (Z.leb_spec 1 d); [| lia].
  destruct (Z.leb_spec d (_days_in_month y m)); [| lia].
  reflexivity.
Qed.

Lemma strptime_complete (raw : string) (dt : date) :
  Spec.birthday_text raw dt -> strptime_dmY raw = Ok dt.
Proof.
  intros (ds & ms & -> & Hd & Hm & V).
  unfold strptime_dmY, match_dmY.
  change ("." ++ ms ++ "." ++ zfill 4 (year dt))%string
    with (String "." (ms ++ String "." (zfill 4 (year dt)))).
  destruct (re_d_head ds _ (ms ++ String "." (zfill 4 (year dt))) Hd)
    as [tail1 ->].
  destruct (re_m_head ms _ (zfill 4 (year dt)) Hm) as [tail2 E2].
  erewrite first_match_head.
  2:{ cbn [re_dot]. rewrite E2. cbn [first_match re_dot].
      rewrite re_Y_zfill. reflexivity. }
  cbn [rest group_Y group_m group_d].
  assert (Vy : 0 <= year dt <= 9999)
    by (destruct V as (Vy & _); unfold MINYEAR, MAXYEAR in Vy; lia).
  rewrite (int_zfill4 _ Vy), (int_month_text _ _ Hm), (int_day_text _ _ Hd).
  cbn [bind]. now apply date_new_valid.
Qed.
(** ** The loop of the upcoming-birthdays query *)

Section UpcomingLoop.

Variable today : date.
Variable days : Z.
Hypothesis today_valid : valid today.

(** The year adjustment of the loop computes the occurrence. *)
Lemma year_adjustment_ok (b d1 d2 : date) :
  replace_year b (year today) = Ok d1 ->
  (if lt d1 today then replace_year b (year today + 1) else Ok d1) = Ok d2 ->
  d2 = Spec.occurrence today b /\ valid d2.
Proof.
  intros H1 H2. apply replace_year_ok in H1. destruct H1 as [-> V1].
  unfold Spec.occurrence, Spec.this_year_occurrence.
  rewrite <- (lt_toordinal _ _ V1 today_valid).
  destruct (lt _ today).
  - apply replace_year_ok in H2. exact H2.
  - injection H2 as <-. auto.
Qed.

Lemma window_test (occ : date) :
  (0 <=? sub_days occ today) && (sub_days occ today <=? days)
  = Spec.in_window today days occ.
Proof.
  unfold Spec.in_window, sub_days. apply eq_iff_eq_true.
  rewrite !andb_true_iff, !Z.leb_le. lia.
Qed.

(** Invariant of the loop: what it appends to the list. *)
Lemma upcoming_loop_ok :
  forall records acc out,
    AddressBook.upcoming_loop today days records acc = Ok out ->
    exists entries,
      out = acc ++ entries
      /\ Forall2 (Spec.emitted today)
           (filter (Spec.selected today days) records) entries.
Proof.
  induction records as [| record records IH]; intros acc out H.
  - injection H as <-. exists []. split; [now rewrite app_nil_r | constructor].
  - simpl in H. unfold Spec.selected at 1. simpl filter.
    fold (Spec.selected today days).
    destruct (Record.birthday record) as [b |] eqn:B; [| now apply IH].
    unfold bind in H.
    destruct (replace_year (Field.value b) (year today)) as [d1 |] eqn:R1;
      [| discriminate].
    destruct (if lt d1 today then _ else _) as [d2 |] eqn:R2;
      [| discriminate].
    destruct (year_adjustment_ok _ _ _ R1 R2) as [-> V2].
    rewrite window_test in H.
    destruct (Spec.in_window today days _) eqn:W; [| now apply IH].
    destruct (AddressBook.adjust_for_weekend _) as [shifted |] eqn:A;
      [| discriminate].
    apply IH in H. destruct H as (entries & -> & F).
    eexists (_ :: entries). split; [now rewrite <- app_assoc |].
    constructor; [| exact F].
    split; [reflexivity |]. exists b, shifted.
    split; [exact B |]. split; [now apply adjust_for_weekend_ok | reflexivity].
Qed.

Lemma days_in_february (y : Z) :
  _days_in_month y 2 = if _is_leap y then 29 else 28.
Proof. unfold _days_in_month. now destruct (_is_leap y). Qed.

(** A leap-day birthday stops the loop when its target year has no
    February 29. *)
Lemma leap_day_raises (b : date) :
  Spec.leap_day b -> Spec.leap_day_target_missing today = true ->
  forall d2,
    (birthday_this_year <- replace_year b (year today) ;;
     if lt birthday_this_year today
     then replace_year b (year today + 1) else Ok birthday_this_year)
    <> Ok d2.
Proof.
  intros [Hm Hd] T d2 H. unfold bind in H.
  destruct (replace_year b (year today)) as [d1 |] eqn:R1; [| discriminate].
  apply replace_year_ok in R1. destruct R1 as [-> V1].
  rewrite Hm, Hd in *.
  assert (L : _is_leap (year today) = true).
  { destruct V1 as (_ & _ & V). cbn [year month day] in V.
    rewrite days_in_february in V.
    destruct (_is_leap (year today)); [reflexivity | lia]. }
  unfold Spec.leap_day_target_missing in T. rewrite L in T. simpl in T.
  apply andb_true_iff in T. destruct T as [T1 T2]. rewrite T1 in H.
  apply replace_year_ok in H. destruct H as [-> (_ & _ & V)].
  cbn [year month day] in V. rewrite Hm, Hd, days_in_february in V.
  apply negb_true_iff in T2. rewrite T2 in V. lia.
Qed.

Lemma upcoming_loop_leap_day (record : Record.t) (b : Birthday.t) :
  Record.birthday record = Some b -> Spec.leap_day (Field.value b) ->
  Spec.leap_day_target_missing today = true ->
  forall records acc,
    In record records ->
    exists e, AddressBook.upcoming_loop today days records acc = Raise e.
Proof.
  intros B LD T. induction records as [| r records IH]; intros acc I.
  - destruct I.
  - destruct I as [-> | I].
    + simpl. rewrite B.
      pose proof (leap_day_raises (Field.value b) LD T) as N.
      unfold bind in *.
      destruct (replace_year (Field.value b) (year today)) as [d1 |] eqn:R1;
        [| eexists; reflexivity].
      destruct (if lt d1 today then _ else _) as [d2 |] eqn:R2;
        [| eexists; reflexivity].
      now destruct (N d2).
    + simpl. destruct (Record.birthday r) as [b' |]; [| now apply IH].
      unfold bind.
      destruct (replace_year (Field.value b') (year today)) as [d1 |];
        [| eexists; reflexivity].
      destruct (if lt d1 today then _ else _) as [d2 |];
        [| eexists; reflexivity].
      destruct (_ && _); [| now apply IH].
      destruct (AddressBook.adjust_for_weekend d2);
        [now apply IH | eexists; reflexivity].
Qed.

End UpcomingLoop.

(** ** Field constructors *)

Lemma int_digits_raises (s : string) (acc : Z) (e : exception) :
  int_digits acc s = Raise e -> class_of e = ValueError_class.
Proof.
  revert acc. induction s as [| c s IH]; intros acc; simpl; [discriminate |].
  destruct (re_digit c); [apply IH |]. now intros [= <-].
Qed.

Lemma int_raises (s : string) (e : exception) :
  int s = Raise e -> class_of e = ValueError_class.
Proof.
  unfold int. destruct (lstrip s); [now intros [= <-] |].
  apply int_digits_raises.
Qed.

Lemma date_new_raises (y m d : Z) (e : exception) :
  date_new y m d = Raise e -> class_of e = ValueError_class.
Proof.
  unfold date_new.
  repeat match goal with
  | |- context [if ?b then _ else _] => destruct b
  end; try discriminate; now intros [= <-].
Qed.

Lemma strptime_raises (raw : string) (e : exception) :
  strptime_dmY raw = Raise e -> class_of e = ValueError_class.
Proof.
  unfold strptime_dmY.
  destruct (match_dmY raw) as [f |]; [| now intros [= <-]].
  destruct (rest f); [| now intros [= <-]].
  unfold bind.
  destruct (int (group_Y f)) eqn:EY; [| intros [= <-]; eapply int_raises; eauto].
  destruct (int (group_m f)) eqn:Em; [| intros [= <-]; eapply int_raises; eauto].
  destruct (int (group_d f)) eqn:Ed; [| intros [= <-]; eapply int_raises; eauto].
  apply date_new_raises.
Qed.

Lemma strptime_sound (raw : string) (dt : date) :
  strptime_dmY raw = Ok dt -> Spec.birthday_text raw dt.
Proof.
  unfold strptime_dmY.
  destruct (match_dmY raw) as [f |] eqn:M; [| discriminate].
  destruct (rest f) eqn:R; [| discriminate].
  unfold match_dmY in M.
  apply first_match_some in M. destruct M as ([ds s1] & I1 & M).
  destruct (re_dot s1) as [s2 |] eqn:D1; [| discriminate].
  apply first_match_some in M. destruct M as ([ms s3] & I2 & M).
  destruct (re_dot s3) as [s4 |] eqn:D2; [| discriminate].
  destruct (re_Y s4) as [[ys s5] |] eqn:Y; [| discriminate].
  injection M as <-. cbn [rest group_Y group_m group_d] in *. subst s5.
  apply re_d_sound in I1. destruct I1 as (d & -> & Td & Id).
  apply re_m_sound in I2. destruct I2 as (m & -> & Tm & Im).
  apply re_dot_sound in D1, D2. subst s1 s3.
  apply re_Y_sound in Y. destruct Y as (y & Hy & -> & ->).
  rewrite (int_zfill4 y Hy), Im, Id. cbn [bind]. intros H.
  apply date_new_ok in H. destruct H as [-> V].
  exists ds, ms. cbn [year month day].
  split; [rewrite zfill4; reflexivity | auto].
Qed.

Lemma birthday_ok (raw : string) (dt : date) :
  Birthday.__init__ raw = Ok (Field.mk dt) <-> strptime_dmY raw = Ok dt.
Proof.
  unfold Birthday.__init__, bind, Field.__init__.
  destruct (strptime_dmY raw) as [d | [m | m]]; split; congruence.
Qed.

Lemma birthday_raises (raw : string) (e : exception) :
  Birthday.__init__ raw = Raise e ->
  e = ValueError "Invalid date format. Use DD.MM.YYYY!".
Proof.
  unfold Birthday.__init__, bind, Field.__init__.
  destruct (strptime_dmY raw) as [d | e'] eqn:S; [discriminate |].
  apply strptime_raises in S. destruct e'; [| discriminate S].
  now intros [= <-].
Qed.

Lemma len_length (raw : string) :
  (len raw =? 10) = (String.length raw =? 10)%nat.
Proof.
  unfold len. apply eq_iff_eq_true.
  rewrite Z.eqb_eq, Nat.eqb_eq. lia.
Qed.

Lemma ascii_digits (raw : string) :
  Spec.ascii_only raw = true ->
  all_chars isdigit_char raw = all_chars re_digit raw.
Proof.
  induction raw as [| c raw IH]; simpl; [reflexivity |].
  intros H. apply andb_true_iff in H. destruct H as [Hc H].
  rewrite (IH H). f_equal.
  unfold isdigit_char. apply Z.ltb_lt in Hc.
  destruct (Z.eqb_spec (code c) 178); [lia |].
  destruct (Z.eqb_spec (code c) 179); [lia |].
  destruct (Z.eqb_spec (code c) 185); [lia |].
  now rewrite !orb_false_r.
Qed.

(** ** Records and the address book *)

Lemma record_set_phones_same (self : Record.t) :
  Record.set_phones self (Record.phones self) = self.
Proof. now destruct self. Qed.

(** A loop that ends without [return] has changed no phone. *)
Lemma edit_loop_not_returned (old_phone new_value : string)
  (ps ps' : list Phone.t) :
  Record.edit_loop old_phone new_value ps = (ps', false) ->
  ps' = ps /\ Record.find_phone_loop old_phone ps = None.
Proof.
  revert ps'. induction ps as [| p ps IH]; intros ps'; simpl.
  - now intros [= <-].
  - destruct (String.eqb (Field.value p) old_phone); [discriminate |].
    destruct (Record.edit_loop old_phone new_value ps) as [ps'' returned].
    intros [= <- ->]. destruct (IH ps'' eq_refl) as [-> F]. auto.
Qed.

(** The loop changes the first phone whose value is [old_phone]. *)
Lemma edit_loop_first_match (old_phone new_value : string)
  (before after : list Phone.t) (p : Phone.t) :
  Field.value p = old_phone ->
  (forall q, In q before -> Field.value q <> old_phone) ->
  Record.edit_loop old_phone new_value (before ++ p :: after)
  = (before ++ Field.mk new_value :: after, true).
Proof.
  intros Hp. induction before as [| q before IH]; intros Hb; simpl.
  - rewrite Hp, String.eqb_refl. reflexivity.
  - assert (Hq : String.eqb (Field.value q) old_phone = false)
      by (apply String.eqb_neq, Hb; now left).
    rewrite Hq, IH; [reflexivity |].
    intros q' I. apply Hb. now right.
Qed.

Lemma get_setitem_same (data : AddressBook.t) (key : string)
  (v : Record.t) :
  AddressBook.get (AddressBook.setitem data key v) key = Some v.
Proof.
  induction data as [| [k r] data IH]; simpl.
  - now rewrite String.eqb_refl.
  - destruct (String.eqb k key) eqn:E; simpl; rewrite E; auto.
Qed.

Lemma get_setitem_other (data : AddressBook.t) (key other : string)
  (v : Record.t) :
  other <> key ->
  AddressBook.get (AddressBook.setitem data key v) other
  = AddressBook.get data other.
Proof.
  intros N. induction data as [| [k r] data IH]; simpl.
  - assert (E : String.eqb key other = false)
      by (apply String.eqb_neq; congruence).
    now rewrite E.
  - destruct (String.eqb k key) eqn:E; simpl.
    + apply String.eqb_eq in E. subst k.
      assert (E : String.eqb key other = false)
        by (apply String.eqb_neq; congruence).
      now rewrite E.
    + destruct (String.eqb k other); auto.
Qed.

Lemma setitem_existing (l1 l2 : AddressBook.t) (key : string)
  (old v : Record.t) :
  ~ In key (AddressBook.keys l1) ->
  AddressBook.setitem (l1 ++ (key, old) :: l2) key v
  = l1 ++ (key, v) :: l2.
Proof.
  induction l1 as [| [k r] l1 IH]; simpl; intros N.
  - now rewrite String.eqb_refl.
  - assert (E : String.eqb k key = false)
      by (apply String.eqb_neq; intros ->; apply N; now left).
    rewrite E, IH; [reflexivity |]. intros I. apply N. now right.
Qed.

(** The first item of a key that the dict holds. *)
Lemma first_item (data : AddressBook.t) (key : string) :
  In key (AddressBook.keys data) ->
  exists l1 old l2,
    data = l1 ++ (key, old) :: l2 /\ ~ In key (AddressBook.keys l1).
Proof.
  induction data as [| [k r] data IH]; simpl; [tauto |].
  destruct (String.eqb_spec k key) as [-> | N].
  - intros _. exists [], r, data. split; [reflexivity | tauto].
  - intros [E | I]; [contradiction |].
    destruct (IH I) as (l1 & old & l2 & -> & N').
    exists ((k, r) :: l1), old, l2. split; [reflexivity |].
    simpl. tauto.
Qed.

Lemma setitem_fresh (data : AddressBook.t) (key : string) (v : Record.t) :
  ~ In key (AddressBook.keys data) ->
  AddressBook.setitem data key v = data ++ [(key, v)].
Proof.
  induction data as [| [k r] data IH]; simpl; intros N; [reflexivity |].
  assert (E : String.eqb k key = false)
    by (apply String.eqb_neq; intros ->; apply N; now left).
  rewrite E, IH; [reflexivity |]. intros I. apply N. now right.
Qed.

(** ** When the query returns *)

Lemma days_in_month_any_year (y1 y2 m d : Z) :
  d <= _days_in_month y1 m -> ~ (m = 2 /\ d = 29) ->
  d <= _days_in_month y2 m.
Proof.
  unfold _days_in_month.
  destruct (Z.eqb_spec m 2) as [-> | N]; simpl.
  - change (index _DAYS_IN_MONTH 2) with 28.
    destruct (_is_leap y1), (_is_leap y2); lia.
  - auto.
Qed.

Lemma replace_year_returns (b : date) (y : Z) :
  valid b -> ~ Spec.leap_day b -> MINYEAR <= y <= MAXYEAR ->
  replace_year b y = Ok (mkdate y (month b) (day b)).
Proof.
  intros (_ & Vm & Vd) L Hy. unfold replace_year.
  apply (date_new_valid (mkdate y (month b) (day b))).
  repeat split; cbn [year month day]; try lia.
  apply (days_in_month_any_year (year b)); [lia | exact L].
Qed.

Lemma toordinal_bounds (d : date) :
  valid d -> 1 <= toordinal d <= _days_before_year (year d + 1).
Proof.
  intros (Vy & Vm & Vd). unfold toordinal, _ymd2ord, MINYEAR in *.
  pose proof (day_of_year_bound _ _ _ Vm Vd).
  pose proof (days_before_year_mono 1 (year d)).
  change (_days_before_year 1) with 0 in *.
  rewrite days_before_year_succ. lia.
Qed.

Lemma adjust_for_weekend_returns (occ : date) :
  valid occ -> year occ < MAXYEAR ->
  exists shifted, AddressBook.adjust_for_weekend occ = Ok shifted.
Proof.
  intros V Hy.
  unfold AddressBook.adjust_for_weekend, AddressBook.find_next_weekday.
  cbv zeta. pose proof (weekday_range occ) as R.
  destruct (Z.leb_spec 5 (weekday occ)) as [W | W]; [| eexists; reflexivity].
  destruct (Z.leb_spec (0 - weekday occ) 0); [| lia].
  unfold add_days. cbv zeta.
  pose proof (toordinal_bounds occ V) as B.
  pose proof (days_before_year_mono (year occ + 1) MAXYEAR) as M.
  unfold MAXYEAR in *. change (_days_before_year 9999) with 3651694 in M.
  unfold _MAXORDINAL.
  destruct (Z.ltb_spec 0 (toordinal occ + (0 - weekday occ + 7))); [| lia].
  destruct (Z.leb_spec (toordinal occ + (0 - weekday occ + 7)) 3652059);
    [| lia].
  simpl andb. cbv iota.
  destruct (fromordinal_spec (toordinal occ + (0 - weekday occ + 7)))
    as (dt & E & _); [unfold _MAXORDINAL; lia |].
  exists dt. exact E.
Qed.

Section UpcomingReturns.

Variable today : date.
Variable days : Z.
Hypothesis today_valid : valid today.
Hypothesis next_year_in_range : year today + 1 < MAXYEAR.

Lemma upcoming_loop_returns :
  forall records,
    (forall record b,
       In record records -> Record.birthday record = Some b ->
       valid (Field.value b) /\ ~ Spec.leap_day (Field.value b)) ->
    forall acc,
      exists out, AddressBook.upcoming_loop today days records acc = Ok out.
Proof.
  induction records as [| record records IH]; intros Hb acc.
  - eexists. reflexivity.
  - assert (Hb' : forall record b,
        In record records -> Record.birthday record = Some b ->
        valid (Field.value b) /\ ~ Spec.leap_day (Field.value b))
      by (intros r b I; apply Hb; now right).
    simpl. destruct (Record.birthday record) as [b |] eqn:B; [| now apply IH].
    destruct (Hb record b (or_introl eq_refl) B) as [Vb Lb].
    assert (Vy := today_valid). assert (Hy := next_year_in_range).
    destruct Vy as (Vy & _). unfold MINYEAR, MAXYEAR in Vy, Hy.
    assert (R1 : MINYEAR <= year today <= MAXYEAR)
      by (unfold MINYEAR, MAXYEAR; lia).
    assert (R2 : MINYEAR <= year today + 1 <= MAXYEAR)
      by (unfold MINYEAR, MAXYEAR; lia).
    pose proof (replace_year_returns _ _ Vb Lb R1) as E1.
    pose proof (replace_year_returns _ _ Vb Lb R2) as E2.
    pose proof (proj2 (replace_year_ok _ _ _ E1)) as V1.
    pose proof (proj2 (replace_year_ok _ _ _ E2)) as V2.
    rewrite E1, E2. cbn [bind].
    set (d2 := if lt _ today then Ok _ else Ok _).
    assert (E : exists occ, d2 = Ok occ /\ valid occ /\ year occ < 9999).
    { subst d2. destruct (lt _ today); eexists;
        (split; [reflexivity | split; [assumption | cbn [year]; lia]]). }
    destruct E as (occ & -> & Vo & Yo). cbn [bind].
    destruct (_ && _); [| now apply IH].
    destruct (adjust_for_weekend_returns occ Vo) as [shifted ->];
      [unfold MAXYEAR; lia |].
    cbn [bind]. now apply IH.
Qed.

End UpcomingReturns.

(** The names the query reports are those of the records whose occurrence
    lies within the window, in the order of the book. *)
Lemma upcoming_birthdays_window (today : date) (book : AddressBook.t)
  (days : Z) (out : list AddressBook.congratulation) :
  valid today ->
  AddressBook.get_upcoming_birthdays today book days = Ok out ->
  map AddressBook.name out
  = map (fun record => Field.value (Record.name record))
      (filter (Spec.selected today days) (AddressBook.values book)).
Proof.
  intros Vt H. unfold AddressBook.get_upcoming_birthdays in H.
  destruct (upcoming_loop_ok today days Vt _ _ _ H) as (entries & -> & F).
  cbn [app]. clear H. induction F as [| record c records entries [N _] F IH];
    [reflexivity |].
  cbn [map]. rewrite N. f_equal. exact IH.
Qed.

(** * The claims *)

(** C1, at a failing input.  Today is Wednesday 11 June 2025; the book holds
    Bob, born on 18 June, and then Leo, born on 29 February 2000.  Bob's
    occurrence lies within the window of 7 days, and Bob alone is reported
    on 18 June; with Leo in the book the call raises the [ValueError] of
    [date.replace] for Leo and returns no list. *)
Theorem upcoming_birthdays_leap_day_drops_in_window_record :
  In Sample.bob (AddressBook.values Sample.leap_book)
  /\ Spec.selected Sample.wednesday 7 Sample.bob = true
  /\ AddressBook.get_upcoming_birthdays Sample.wednesday
       [("Bob"%string, Sample.bob)] 7
     = Ok [AddressBook.mk_congratulation "Bob" "18.06.2025"]
  /\ AddressBook.get_upcoming_birthdays Sample.wednesday Sample.leap_book 7
     = Raise (ValueError "day is out of range for month").
Proof.
  split; [left; reflexivity |]. repeat split.
Qed.

(** C2.  Whenever the query returns, its list is, in the order of the book,
    one element per record whose occurrence lies within
    [[today, today + days]]; the window is tested on the occurrence before
    any shift.  The element carries the record's name and the text
    DD.MM.YYYY of the occurrence moved 2 days later when it is a Saturday,
    1 day later when it is a Sunday (a Monday in both cases), and of the
    occurrence itself on a weekday.  The query does return when no birthday
    of the book is a February 29 and the next year is before the last year a
    date can hold. *)
Theorem upcoming_birthdays_weekend_shift (today : date)
  (book : AddressBook.t) (days : Z) :
  valid today ->
  (forall out,
     AddressBook.get_upcoming_birthdays today book days = Ok out ->
     Forall2 (Spec.emitted today)
       (filter (Spec.selected today days) (AddressBook.values book)) out)
  /\ (year today + 1 < MAXYEAR ->
      (forall record b,
         In record (AddressBook.values book) ->
         Record.birthday record = Some b ->
         valid (Field.value b) /\ ~ Spec.leap_day (Field.value b)) ->
      exists out, AddressBook.get_upcoming_birthdays today book days = Ok out).
Proof.
  intros Vt. unfold AddressBook.get_upcoming_birthdays. split.
  - intros out H.
    destruct (upcoming_loop_ok today days Vt _ _ _ H) as (entries & -> & F).
    exact F.
  - intros Hy Hb. now apply upcoming_loop_returns.
Qed.

(** C2, on the sample book with a window of 4 days: Ann's Saturday and
    Cid's Sunday are both reported on Monday 16 June, which is past
    11 June + 4 days. *)
Lemma upcoming_birthdays_weekend_shift_witness :
  Forall2 (Spec.emitted Sample.wednesday)
    (filter (Spec.selected Sample.wednesday 4)
       (AddressBook.values Sample.book))
    [AddressBook.mk_congratulation "Ann" "16.06.2025";
     AddressBook.mk_congratulation "Cid" "16.06.2025"].
Proof.
  apply (upcoming_birthdays_weekend_shift Sample.wednesday Sample.book 4).
  - exact (proj2 (proj1 (date_new_ok 2025 6 11 _) eq_refl)).
  - reflexivity.
Defined.

(** C3 (counterexample).  ["1.6.1990"], with a one-digit day and a
    one-digit month, is accepted, and it is the text of no date written
    with a 2-digit day and a 2-digit month. *)
Lemma birthday_accepts_single_digits :
  Birthday.__init__ "1.6.1990" = Ok (Field.mk (mkdate 1990 6 1))
  /\ ~ (exists dt, Spec.strict_text "1.6.1990" dt).
Proof.
  split; [reflexivity |].
  intros (dt & E & _). rewrite !zfill2 in E. discriminate E.
Qed.

(** C3, as amended.  On the strings of characters U+0000..U+00FF, where the
    decimal digits are 0..9, the constructor succeeds exactly on the texts
    day.month.year whose day is written with two digits (01..31), one digit
    (1..9), or a blank and one digit, whose month is written with two
    digits (01..12) or one (1..9), whose year has four digits, and which
    denote a real calendar date; its value is that date.  It raises the
    invalid-format [ValueError] on every other string, and every strict
    DD.MM.YYYY text of a real date is accepted. *)
Theorem birthday_accepts_day_month_year (raw : string) :
  (forall dt,
     Birthday.__init__ raw = Ok (Field.mk dt) <-> Spec.birthday_text raw dt)
  /\ ((forall dt, ~ Spec.birthday_text raw dt) <->
      Birthday.__init__ raw
      = Raise (ValueError "Invalid date format. Use DD.MM.YYYY!"))
  /\ (forall dt,
        Spec.strict_text raw dt -> Birthday.__init__ raw = Ok (Field.mk dt)).
Proof.
  assert (A : forall dt,
    Birthday.__init__ raw = Ok (Field.mk dt) <-> Spec.birthday_text raw dt).
  { intros dt. rewrite birthday_ok. split.
    - apply strptime_sound.
    - apply strptime_complete. }
  split; [exact A |]. split.
  - split.
    + intros N. destruct (Birthday.__init__ raw) as [[dt] | e] eqn:E.
      * destruct (N dt). now apply A.
      * now rewrite (birthday_raises raw e E).
    + intros E dt T. apply A in T. congruence.
  - intros dt [E V]. apply A. exists (zfill 2 (day dt)), (zfill 2 (month dt)).
    split; [exact E |].
    assert (B := V). destruct B as (_ & Vm & Vd).
    split; [| split; [| exact V]].
    + constructor. split; [lia |].
      destruct Vd as [_ Vd]. revert Vd. unfold _days_in_month.
      destruct (_ && _); [lia |].
      generalize (month dt) Vm. intros m Hm.
      enum m 1 12 ltac:(table_values; lia).
    + now constructor.
Qed.

(** C4.  When [edit_phone] raises, the record after the call is the record
    before it: its phones, its name and its birthday.  It raises either the
    error of validating the new phone, before the loop over the phones
    runs, or, the new phone being valid, the not-found error because no
    phone of the record has the old value. *)
Theorem edit_phone_failure_changes_nothing (self : Record.t)
  (old_phone new_phone : string) (e : exception) :
  snd (Record.edit_phone self old_phone new_phone) = Raise e ->
  fst (Record.edit_phone self old_phone new_phone) = self
  /\ (Phone.__init__ new_phone = Raise e
      \/ (is_ok (Phone.__init__ new_phone) = true
          /\ Record.find_phone self old_phone = None
          /\ e = ValueError ("Phone number " ++ old_phone ++ " not found!"))).
Proof.
  unfold Record.edit_phone, Record.find_phone.
  destruct (Phone.__init__ new_phone) as [new_phone_obj | e'] eqn:P; simpl.
  - destruct (Record.edit_loop _ _ _) as [ps returned] eqn:L.
    destruct returned; simpl; [discriminate |].
    intros [= <-]. apply edit_loop_not_returned in L. destruct L as [-> F].
    split; [apply record_set_phones_same | right; auto].
  - intros [= <-]. auto.
Qed.

(** C4, on a record with one phone: an edit to an invalid phone and an edit
    of an absent phone both leave the record as it was. *)
Lemma edit_phone_failure_changes_nothing_witness :
  fst (Record.edit_phone Sample.dan "5551234567" "55512345") = Sample.dan
  /\ fst (Record.edit_phone Sample.dan "9999999999" "0000000000")
     = Sample.dan.
Proof.
  split.
  - exact (proj1 (edit_phone_failure_changes_nothing Sample.dan
                    "5551234567" "55512345"
                    (ValueError "The phone number must contain 10 digits!")
                    eq_refl)).
  - exact (proj1 (edit_phone_failure_changes_nothing Sample.dan
                    "9999999999" "0000000000"
                    (ValueError "Phone number 9999999999 not found!")
                    eq_refl)).
Defined.

(** C5 (counterexample).  Ten superscript twos (U+00B2) are no decimal
    digits, and [Phone] accepts them. *)
Lemma phone_accepts_superscript_digits :
  Phone.__init__ Sample.superscript_twos
  = Ok (Field.mk Sample.superscript_twos)
  /\ Spec.ten_decimal_digits Sample.superscript_twos = false.
Proof. split; reflexivity. Qed.

(** C5, as amended.  [Phone] succeeds, keeping the string, exactly when the
    string has 10 characters that [str.isdigit] takes for digits, and raises
    the invalid-format [ValueError] otherwise; on a string of ASCII
    characters these are the 10 decimal digits of the claim. *)
Theorem phone_accepts_ten_isdigit_chars (raw : string) :
  Phone.__init__ raw
  = (if Spec.ten_isdigit_chars raw then Ok (Field.mk raw)
     else Raise (ValueError "The phone number must contain 10 digits!"))
  /\ (Spec.ascii_only raw = true ->
      Spec.ten_isdigit_chars raw = Spec.ten_decimal_digits raw).
Proof.
  split.
  - unfold Phone.__init__, Spec.ten_isdigit_chars, isdigit.
    rewrite len_length.
    destruct raw as [| c raw]; [reflexivity |].
    destruct (all_chars isdigit_char (String c raw));
      destruct (String.length (String c raw) =? 10)%nat; reflexivity.
  - intros A. unfold Spec.ten_isdigit_chars, Spec.ten_decimal_digits.
    now rewrite ascii_digits.
Qed.

(** C6.  With a valid new value, [edit_phone] replaces the first phone
    whose value is the old one and nothing else: the phones before it and
    all the phones after it, later phones of the old value among them, keep
    their places and values. *)
Theorem edit_phone_replaces_first_match_only (self : Record.t)
  (old_phone new_phone : string) (before after : list Phone.t)
  (p : Phone.t) :
  is_ok (Phone.__init__ new_phone) = true ->
  Record.phones self = before ++ p :: after ->
  Field.value p = old_phone ->
  (forall q, In q before -> Field.value q <> old_phone) ->
  Record.edit_phone self old_phone new_phone
  = (Record.set_phones self (before ++ Field.mk new_phone :: after), Ok tt).
Proof.
  intros V E Hp Hb. unfold Record.edit_phone.
  assert (P : Phone.__init__ new_phone = Ok (Field.mk new_phone)).
  { unfold Phone.__init__ in *. destruct (_ || _); [discriminate V |].
    reflexivity. }
  rewrite P, E. cbn [Field.value].
  now rewrite (edit_loop_first_match old_phone new_phone before after p Hp Hb).
Qed.

(** C6, on a record whose first and third phones are equal. *)
Lemma edit_phone_replaces_first_match_only_witness :
  Record.edit_phone Sample.twins "1111111111" "3333333333"
  = (Sample.record "Twins"
       ["3333333333"%string; "2222222222"%string; "1111111111"%string] None,
     Ok tt).
Proof.
  apply (edit_phone_replaces_first_match_only Sample.twins
           "1111111111" "3333333333" []
           [Field.mk "2222222222"%string; Field.mk "1111111111"%string]
           (Field.mk "1111111111"%string)).
  - reflexivity.
  - reflexivity.
  - reflexivity.
  - intros q [].
Defined.

(** C7.  After [add_record], [find] of the record's name returns the new
    record itself and [find] of any other name returns what it returned
    before.  Under an existing name the old record is replaced where it
    stood and every other item is kept; under a fresh name the item is
    added at the end. *)
Theorem add_record_overwrites (book : AddressBook.t) (record : Record.t) :
  AddressBook.find (AddressBook.add_record book record)
    (Field.value (Record.name record)) = Some record
  /\ (forall other,
        other <> Field.value (Record.name record) ->
        AddressBook.find (AddressBook.add_record book record) other
        = AddressBook.find book other)
  /\ (In (Field.value (Record.name record)) (AddressBook.keys book) ->
      exists l1 old l2,
        book = l1 ++ (Field.value (Record.name record), old) :: l2
        /\ ~ In (Field.value (Record.name record)) (AddressBook.keys l1)
        /\ AddressBook.add_record book record
           = l1 ++ (Field.value (Record.name record), record) :: l2)
  /\ (~ In (Field.value (Record.name record)) (AddressBook.keys book) ->
      AddressBook.add_record book record
      = book ++ [(Field.value (Record.name record), record)]).
Proof.
  unfold AddressBook.find, AddressBook.add_record.
  split; [apply get_setitem_same |].
  split; [intros other N; now apply get_setitem_other |].
  split.
  - intros I. destruct (first_item _ _ I) as (l1 & old & l2 & -> & N).
    exists l1, old, l2. split; [reflexivity |]. split; [exact N |].
    now apply setitem_existing.
  - apply setitem_fresh.
Qed.

(** C7, on the sample book: a new record named Dan takes the place of the
    old one, whose phone is gone. *)
Lemma add_record_overwrites_witness :
  AddressBook.find
    (AddressBook.add_record Sample.book (Sample.record "Dan" [] None)) "Dan"
  = Some (Sample.record "Dan" [] None).
Proof.
  exact (proj1 (add_record_overwrites Sample.book
                  (Sample.record "Dan" [] None))).
Defined.

(** C8 (counterexample).  The not-found error of [edit_phone] and the
    invalid-format error of [Phone] have the same class. *)
Lemma not_found_and_invalid_format_share_class :
  exists e1 e2,
    snd (Record.edit_phone Sample.dan "9999999999" "0000000000") = Raise e1
    /\ Phone.__init__ "55512345" = Raise e2
    /\ class_of e1 = class_of e2.
Proof.
  exists (ValueError "Phone number 9999999999 not found!"),
    (ValueError "The phone number must contain 10 digits!").
  repeat split.
Qed.

(** C8, as amended.  The not-found error of [edit_phone] is a [ValueError],
    the class of the invalid-format errors of [Phone] and [Birthday]; it
    differs from them by its message, which names the old phone and is never
    the message of an invalid-format error. *)
Theorem not_found_differs_by_message_only (self : Record.t)
  (old_phone new_phone : string) (e1 : exception) :
  is_ok (Phone.__init__ new_phone) = true ->
  snd (Record.edit_phone self old_phone new_phone) = Raise e1 ->
  e1 = ValueError ("Phone number " ++ old_phone ++ " not found!")
  /\ (forall raw e2,
        Phone.__init__ raw = Raise e2 ->
        class_of e2 = class_of e1 /\ message_of e2 <> message_of e1)
  /\ (forall raw e3,
        Birthday.__init__ raw = Raise e3 ->
        class_of e3 = class_of e1 /\ message_of e3 <> message_of e1).
Proof.
  intros V H.
  destruct (edit_phone_failure_changes_nothing _ _ _ _ H)
    as [_ [P | (_ & _ & ->)]].
  - rewrite P in V. discriminate V.
  - split; [reflexivity |]. split.
    + intros raw e2 E. unfold Phone.__init__ in E.
      destruct (_ || _); [| discriminate E]. injection E as <-.
      split; [reflexivity | discriminate].
    + intros raw e3 E. apply birthday_raises in E. subst e3.
      split; [reflexivity | discriminate].
Qed.

(** C8, on a record with one phone. *)
Lemma not_found_differs_by_message_only_witness :
  ValueError "Phone number 9999999999 not found!"
  = ValueError ("Phone number " ++ "9999999999" ++ " not found!")
  /\ (forall raw e2,
        Phone.__init__ raw = Raise e2 ->
        class_of e2 = ValueError_class
        /\ message_of e2 <> "Phone number 9999999999 not found!"%string)
  /\ (forall raw e3,
        Birthday.__init__ raw = Raise e3 ->
        class_of e3 = ValueError_class
        /\ message_of e3 <> "Phone number 9999999999 not found!"%string).
Proof.
  exact (not_found_differs_by_message_only Sample.dan
           "9999999999" "0000000000"
           (ValueError "Phone number 9999999999 not found!")
           eq_refl eq_refl).
Defined.

(** C9 (counterexample).  The empty string is accepted as a name, and a
    record is created for it. *)
Lemma name_accepts_empty_string :
  Name.__init__ "" = Ok (Field.mk ""%string)
  /\ ~ (exists e, Record.__init__ "" = Raise e).
Proof.
  split; [reflexivity |]. intros [e E]. discriminate E.
Qed.

(** C9, as amended.  [Name] accepts every string, the empty one included,
    and keeps it as it is; [Record] creates for it a record with no phone
    and no birthday. *)
Theorem name_accepts_every_string (value : string) :
  Name.__init__ value = Ok (Field.mk value)
  /\ Record.__init__ value = Ok (Record.mk (Field.mk value) [] None).
Proof. split; reflexivity. Qed.

(** C10.  If the book holds a record whose birthday is February 29, and the
    year the query moves it to (the current year, or the next one when this
    year's February 29 is already past) has no February 29, the call
    raises: it returns no list, whatever the other records are and
    wherever they stand in the book. *)
Theorem leap_day_birthday_fails_whole_query (today : date)
  (book : AddressBook.t) (days : Z) (record : Record.t) (b : Birthday.t) :
  In record (AddressBook.values book) ->
  Record.birthday record = Some b ->
  Spec.leap_day (Field.value b) ->
  Spec.leap_day_target_missing today = true ->
  exists e, AddressBook.get_upcoming_birthdays today book days = Raise e.
Proof.
  intros I B L T. unfold AddressBook.get_upcoming_birthdays.
  now apply (upcoming_loop_leap_day today days record b B L T).
Qed.

(** C10, on the book of Bob and Leo: Bob, examined first and within the
    window, is lost with the rest. *)
Lemma leap_day_birthday_fails_whole_query_witness :
  exists e,
    AddressBook.get_upcoming_birthdays Sample.wednesday Sample.leap_book 7
    = Raise e.
Proof.
  apply (leap_day_birthday_fails_whole_query Sample.wednesday
           Sample.leap_book 7 Sample.leo (Field.mk (mkdate 2000 2 29))).
  - right. left. reflexivity.
  - reflexivity.
  - split; reflexivity.
  - reflexivity.
Defined.

(** * Further properties *)

Import Builtins.

(** ** More on records *)

Lemma find_phone_loop_none (phone : string) (ps : list Phone.t) :
  Record.find_phone_loop phone ps = None <->
  (forall q, In q ps -> Field.value q <> phone).
Proof.
  induction ps as [| p ps IH]; simpl.
  - split; [intros _ q [] | reflexivity].
  - destruct (String.eqb_spec (Field.value p) phone) as [E | N].
    + split; [discriminate |]. intros H. destruct (H p (or_introl eq_refl) E).
    + rewrite IH. split.
      * intros H q [<- | I]; auto.
      * intros H q I. apply H. now right.
Qed.

Lemma find_phone_loop_some (phone : string) (ps : list Phone.t)
  (p : Phone.t) :
  Record.find_phone_loop phone ps = Some p ->
  exists before after,
    ps = before ++ p :: after /\ Field.value p = phone
    /\ (forall q, In q before -> Field.value q <> phone).
Proof.
  induction ps as [| p' ps IH]; simpl; [discriminate |].
  destruct (String.eqb_spec (Field.value p') phone) as [E | N].
  - intros [= <-]. exists [], ps. split; [reflexivity |].
    split; [exact E | intros q []].
  - intros H. destruct (IH H) as (before & after & -> & V & B).
    exists (p' :: before), after. split; [reflexivity |].
    split; [exact V |]. intros q [<- | I]; auto.
Qed.

Lemma find_phone_loop_filter_same (phone : string) (ps : list Phone.t) :
  Record.find_phone_loop phone
    (filter (fun p => negb (String.eqb (Field.value p) phone)) ps) = None.
Proof.
  apply find_phone_loop_none. intros q I. apply filter_In in I.
  destruct I as [_ I]. apply negb_true_iff, String.eqb_neq in I. exact I.
Qed.

Lemma find_phone_loop_filter_other (phone other : string)
  (ps : list Phone.t) :
  other <> phone ->
  Record.find_phone_loop other
    (filter (fun p => negb (String.eqb (Field.value p) phone)) ps)
  = Record.find_phone_loop other ps.
Proof.
  intros N. induction ps as [| p ps IH]; simpl; [reflexivity |].
  destruct (String.eqb_spec (Field.value p) phone) as [E | N']; simpl.
  - destruct (String.eqb_spec (Field.value p) other) as [E' | _];
      [congruence | exact IH].
  - now rewrite IH.
Qed.

Lemma filter_none_matches (phone : string) (ps : list Phone.t) :
  Record.find_phone_loop phone ps = None ->
  filter (fun p => negb (String.eqb (Field.value p) phone)) ps = ps.
Proof.
  induction ps as [| p ps IH]; simpl; [reflexivity |].
  destruct (String.eqb (Field.value p) phone); [discriminate |].
  intros H. simpl. now rewrite IH.
Qed.

(** [remove_phone] never raises; afterwards no phone has the removed value,
    the search for any other value gives what it gave before, and the name
    and the birthday are kept.  Removing a value the record does not hold
    leaves the record as it was. *)
Theorem remove_phone_removes_every_match (self : Record.t) (phone : string) :
  snd (Record.remove_phone self phone) = Ok tt
  /\ Record.find_phone (fst (Record.remove_phone self phone)) phone = None
  /\ (forall other,
        other <> phone ->
        Record.find_phone (fst (Record.remove_phone self phone)) other
        = Record.find_phone self other)
  /\ Record.name (fst (Record.remove_phone self phone)) = Record.name self
  /\ Record.birthday (fst (Record.remove_phone self phone))
     = Record.birthday self
  /\ (Record.find_phone self phone = None ->
      fst (Record.remove_phone self phone) = self).
Proof.
  unfold Record.remove_phone, Record.find_phone. cbn [fst snd].
  split; [reflexivity |]. split; [apply find_phone_loop_filter_same |].
  split; [intros other N; now apply find_phone_loop_filter_other |].
  split; [reflexivity |]. split; [reflexivity |].
  intros H. cbn [Record.set_phones Record.phones].
  rewrite (filter_none_matches _ _ H). now destruct self.
Qed.

(** [find_phone] returns the first phone of the record that has the value,
    and [None] exactly when no phone has it. *)
Theorem find_phone_first_match (self : Record.t) (phone : string) :
  (Record.find_phone self phone = None <->
   (forall q, In q (Record.phones self) -> Field.value q <> phone))
  /\ (forall p,
        Record.find_phone self phone = Some p ->
        exists before after,
          Record.phones self = before ++ p :: after
          /\ Field.value p = phone
          /\ (forall q, In q before -> Field.value q <> phone)).
Proof.
  unfold Record.find_phone. split.
  - apply find_phone_loop_none.
  - intros p. apply find_phone_loop_some.
Qed.

Lemma phone_init_spec (raw : string) :
  Phone.__init__ raw
  = (if Spec.ten_isdigit_chars raw then Ok (Field.mk raw)
     else Raise (ValueError "The phone number must contain 10 digits!")).
Proof.
  unfold Phone.__init__, Spec.ten_isdigit_chars, isdigit.
  rewrite len_length.
  destruct raw as [| c raw]; [reflexivity |].
  destruct (all_chars isdigit_char (String c raw));
    destruct (String.length (String c raw) =? 10)%nat; reflexivity.
Qed.

Lemma find_phone_loop_app_new (phone : string) (ps : list Phone.t) :
  exists p,
    Record.find_phone_loop phone (ps ++ [Field.mk phone]) = Some p
    /\ Field.value p = phone.
Proof.
  induction ps as [| q ps IH]; simpl.
  - rewrite String.eqb_refl. eauto.
  - destruct (String.eqb_spec (Field.value q) phone) as [E | N]; eauto.
Qed.

(** [add_phone] with a phone that [Phone] accepts puts it after the phones
    the record has, whether or not one of them has the same value, and
    [find_phone] then finds that value; with any other string it raises the
    error of [Phone] and the record is as it was. *)
Theorem add_phone_appends_or_fails (self : Record.t) (phone : string) :
  (Spec.ten_isdigit_chars phone = true ->
   Record.add_phone self phone
   = (Record.set_phones self (Record.phones self ++ [Field.mk phone]), Ok tt)
   /\ exists p,
        Record.find_phone (fst (Record.add_phone self phone)) phone = Some p
        /\ Field.value p = phone)
  /\ (Spec.ten_isdigit_chars phone = false ->
      Record.add_phone self phone
      = (self, Raise (ValueError "The phone number must contain 10 digits!"))).
Proof.
  unfold Record.add_phone, Record.find_phone. rewrite phone_init_spec.
  split; intros ->; [| reflexivity].
  split; [reflexivity |]. cbn [fst Record.set_phones Record.phones].
  apply find_phone_loop_app_new.
Qed.

Lemma edit_loop_returned (old_phone new_value : string) (ps : list Phone.t) :
  snd (Record.edit_loop old_phone new_value ps) = true <->
  Record.find_phone_loop old_phone ps <> None.
Proof.
  induction ps as [| p ps IH]; simpl.
  - split; [discriminate | congruence].
  - destruct (String.eqb (Field.value p) old_phone); simpl.
    + split; [discriminate | reflexivity].
    + destruct (Record.edit_loop old_phone new_value ps) as [ps' r].
      exact IH.
Qed.

Lemma edit_loop_length (old_phone new_value : string) (ps : list Phone.t) :
  List.length (fst (Record.edit_loop old_phone new_value ps))
  = List.length ps.
Proof.
  induction ps as [| p ps IH]; simpl; [reflexivity |].
  destruct (String.eqb (Field.value p) old_phone); simpl; [reflexivity |].
  destruct (Record.edit_loop old_phone new_value ps) as [ps' r].
  simpl in *. now rewrite IH.
Qed.

Lemma edit_loop_finds_new (old_phone new_value : string)
  (ps : list Phone.t) :
  snd (Record.edit_loop old_phone new_value ps) = true ->
  Record.find_phone_loop new_value
    (fst (Record.edit_loop old_phone new_value ps)) <> None.
Proof.
  induction ps as [| p ps IH]; simpl; [discriminate |].
  destruct (String.eqb (Field.value p) old_phone); simpl.
  - rewrite String.eqb_refl. discriminate.
  - destruct (Record.edit_loop old_phone new_value ps) as [ps' r].
    simpl in *. intros H.
    destruct (String.eqb (Field.value p) new_value); [discriminate | auto].
Qed.

(** [edit_phone] succeeds exactly when the new value is one [Phone] accepts
    and some phone of the record has the old value; the record then has as
    many phones as before, the same name and birthday, and a phone of the
    new value. *)
Theorem edit_phone_succeeds_iff (self : Record.t)
  (old_phone new_phone : string) :
  (snd (Record.edit_phone self old_phone new_phone) = Ok tt <->
   Spec.ten_isdigit_chars new_phone = true
   /\ Record.find_phone self old_phone <> None)
  /\ (snd (Record.edit_phone self old_phone new_phone) = Ok tt ->
      List.length (Record.phones (fst (Record.edit_phone self old_phone
                                         new_phone)))
      = List.length (Record.phones self)
      /\ Record.name (fst (Record.edit_phone self old_phone new_phone))
         = Record.name self
      /\ Record.birthday (fst (Record.edit_phone self old_phone new_phone))
         = Record.birthday self
      /\ Record.find_phone (fst (Record.edit_phone self old_phone new_phone))
           new_phone <> None).
Proof.
  unfold Record.edit_phone, Record.find_phone. rewrite phone_init_spec.
  destruct (Spec.ten_isdigit_chars new_phone); cbn [Field.value].
  - pose proof (edit_loop_returned old_phone new_phone (Record.phones self))
      as R.
    pose proof (edit_loop_length old_phone new_phone (Record.phones self))
      as L.
    pose proof (edit_loop_finds_new old_phone new_phone (Record.phones self))
      as F.
    destruct (Record.edit_loop old_phone new_phone (Record.phones self))
      as [ps returned].
    cbn [fst snd] in *. destruct returned; cbn [fst snd].
    + split.
      * split; [intros _; split; [reflexivity | now apply R] | reflexivity].
      * intros _. cbn [Record.set_phones Record.phones Record.name
                        Record.birthday]. auto.
    + split; [| discriminate].
      split; [discriminate |]. intros [_ H]. apply R in H. discriminate H.
  - cbn [fst snd]. split; [| discriminate].
    split; [discriminate | intros [H _]; discriminate H].
Qed.

Lemma edit_loop_keeps_phones_ok (old_phone new_value : string)
  (ps : list Phone.t) :
  Spec.ten_isdigit_chars new_value = true ->
  Forall Inv.phone_ok ps ->
  Forall Inv.phone_ok (fst (Record.edit_loop old_phone new_value ps)).
Proof.
  intros V. induction 1 as [| p ps Hp H IH]; simpl; [constructor |].
  destruct (String.eqb (Field.value p) old_phone); simpl.
  - constructor; [exact V | exact H].
  - destruct (Record.edit_loop old_phone new_value ps) as [ps' r].
    simpl in *. now constructor.
Qed.

Lemma days_in_month_le_31 (y m : Z) : 1 <= m <= 12 -> _days_in_month y m <= 31.
Proof.
  intros Hm. unfold _days_in_month.
  destruct (_ && _); [lia |]. enum m 1 12 ltac:(table_values; lia).
Qed.

Lemma strict_birthday_text (raw : string) (dt : date) :
  Spec.strict_text raw dt -> Spec.birthday_text raw dt.
Proof.
  intros [E V]. exists (zfill 2 (day dt)), (zfill 2 (month dt)).
  split; [exact E |]. assert (B := V). destruct B as (_ & Vm & Vd).
  pose proof (days_in_month_le_31 (year dt) (month dt) Vm).
  split; [constructor; lia |]. split; [now constructor | exact V].
Qed.

Lemma birthday_valid (raw : string) (b : Birthday.t) :
  Birthday.__init__ raw = Ok b -> valid (Field.value b).
Proof.
  destruct b as [dt]. intros H. apply birthday_ok, strptime_sound in H.
  destruct H as (_ & _ & _ & _ & _ & V). exact V.
Qed.

Lemma birthday_of_valid (dt : date) :
  valid dt -> Birthday.__init__ (strftime_dmY dt) = Ok (Field.mk dt).
Proof.
  intros V. apply birthday_ok, strptime_complete, strict_birthday_text.
  split; [reflexivity | exact V].
Qed.

(** The text [strftime] renders for a real date of the years 1000..9999 is
    one [Birthday] accepts, with that date as its value; so the text
    rendered for an accepted birthday of those years builds the same
    birthday again, and two real dates of those years that render alike are
    the same date. *)
Theorem birthday_render_round_trip :
  (forall dt,
     valid dt -> 1000 <= year dt ->
     Birthday.__init__ (strftime_dmY dt) = Ok (Field.mk dt))
  /\ (forall raw b,
        Birthday.__init__ raw = Ok b -> 1000 <= year (Field.value b) ->
        Birthday.__init__ (strftime_dmY (Field.value b)) = Ok b)
  /\ (forall d1 d2,
        valid d1 -> valid d2 -> 1000 <= year d1 -> 1000 <= year d2 ->
        strftime_dmY d1 = strftime_dmY d2 -> d1 = d2).
Proof.
  split; [intros dt V _; now apply birthday_of_valid |]. split.
  - intros raw b H _. pose proof (birthday_valid raw b H) as V.
    destruct b as [dt]. now apply birthday_of_valid.
  - intros d1 d2 V1 V2 _ _ E. apply birthday_of_valid in V1, V2.
    rewrite E in V1. congruence.
Qed.

Lemma record_methods_ok :
  (forall name r, Record.__init__ name = Ok r -> Inv.record_ok r)
  /\ (forall self,
        Inv.record_ok self ->
        (forall phone, Inv.record_ok (fst (Record.add_phone self phone)))
        /\ (forall phone, Inv.record_ok (fst (Record.remove_phone self phone)))
        /\ (forall old_phone new_phone,
              Inv.record_ok (fst (Record.edit_phone self old_phone new_phone)))
        /\ (forall raw, Inv.record_ok (fst (Record.add_birthday self raw)))).
Proof.
  split.
  - intros name r [= <-]. split; [constructor | discriminate].
  - intros self [P B]. split; [| split; [| split]].
    + intros phone. unfold Record.add_phone. rewrite phone_init_spec.
      destruct (Spec.ten_isdigit_chars phone) eqn:V; cbn [fst];
        [| split; assumption].
      split; [| exact B].
      cbn [Record.set_phones Record.phones]. apply Forall_app.
      split; [exact P | constructor; [exact V | constructor]].
    + intros phone. split; [| exact B].
      cbn [fst Record.remove_phone Record.set_phones Record.phones].
      apply Forall_forall. intros q I. apply filter_In in I.
      destruct I as [I _]. revert q I. now apply Forall_forall.
    + intros old_phone new_phone.
      unfold Record.edit_phone. rewrite phone_init_spec.
      destruct (Spec.ten_isdigit_chars new_phone) eqn:V; cbn [fst];
        [| split; assumption].
      pose proof (edit_loop_keeps_phones_ok old_phone new_phone _ V P) as K.
      cbn [Field.value].
      destruct (Record.edit_loop old_phone new_phone (Record.phones self))
        as [ps [|]]; (split; [exact K | exact B]).
    + intros raw. unfold Record.add_birthday.
      destruct (Birthday.__init__ raw) as [b |] eqn:E;
        [| split; assumption].
      split; [exact P |].
      cbn [fst Record.set_birthday Record.birthday]. intros b' [= <-].
      now apply (birthday_valid raw).
Qed.

(** A new record has valid fields, and every method of a record keeps them
    valid: each phone is one [Phone] accepts and the birthday, if set, is a
    real date. *)
Theorem record_methods_keep_fields_valid :
  (forall name r, Record.__init__ name = Ok r -> Inv.record_ok r)
  /\ (forall self,
        Inv.record_ok self ->
        (forall phone, Inv.record_ok (fst (Record.add_phone self phone)))
        /\ (forall phone, Inv.record_ok (fst (Record.remove_phone self phone)))
        /\ (forall old_phone new_phone,
              Inv.record_ok (fst (Record.edit_phone self old_phone new_phone)))
        /\ (forall raw, Inv.record_ok (fst (Record.add_birthday self raw)))).
Proof. exact record_methods_ok. Qed.

(** ** More on the address book *)

Lemma get_none (data : AddressBook.t) (key : string) :
  AddressBook.get data key = None <-> ~ In key (AddressBook.keys data).
Proof.
  induction data as [| [k r] data IH]; simpl; [tauto |].
  destruct (String.eqb_spec k key) as [E | N].
  - split; [discriminate | intros H; destruct H; now left].
  - rewrite IH. tauto.
Qed.

Lemma get_delitem_same (data : AddressBook.t) (key : string) :
  NoDup (AddressBook.keys data) ->
  AddressBook.get (AddressBook.delitem data key) key = None.
Proof.
  induction data as [| [k r] data IH]; simpl; [reflexivity |].
  intros D. inversion D as [| ? ? N D']; subst.
  destruct (String.eqb_spec k key) as [E | N'].
  - subst. now apply get_none.
  - simpl. destruct (String.eqb_spec k key); [contradiction | auto].
Qed.

Lemma get_delitem_other (data : AddressBook.t) (key other : string) :
  other <> key ->
  AddressBook.get (AddressBook.delitem data key) other
  = AddressBook.get data other.
Proof.
  intros N. induction data as [| [k r] data IH]; simpl; [reflexivity |].
  destruct (String.eqb_spec k key) as [E | N'].
  - subst. destruct (String.eqb_spec key other); [congruence | reflexivity].
  - simpl. now rewrite IH.
Qed.

Lemma keys_delitem_incl (data : AddressBook.t) (key k : string) :
  In k (AddressBook.keys (AddressBook.delitem data key)) ->
  In k (AddressBook.keys data).
Proof.
  induction data as [| [k' r] data IH]; simpl; [tauto |].
  destruct (String.eqb k' key); simpl; tauto.
Qed.

Lemma delitem_keeps_items (data : AddressBook.t) (key : string)
  (item : string * Record.t) :
  In item (AddressBook.delitem data key) -> In item data.
Proof.
  induction data as [| [k' r] data IH]; simpl; [tauto |].
  destruct (String.eqb k' key); simpl; tauto.
Qed.

Lemma nodup_delitem (data : AddressBook.t) (key : string) :
  NoDup (AddressBook.keys data) ->
  NoDup (AddressBook.keys (AddressBook.delitem data key)).
Proof.
  induction data as [| [k r] data IH]; simpl; [auto |].
  intros D. inversion D as [| ? ? N D']; subst.
  destruct (String.eqb k key); [exact D' |]. simpl.
  constructor; [| auto]. intros I. apply N. eapply keys_delitem_incl, I.
Qed.

Lemma delitem_setitem_fresh (data : AddressBook.t) (key : string)
  (v : Record.t) :
  ~ In key (AddressBook.keys data) ->
  AddressBook.delitem (AddressBook.setitem data key v) key = data.
Proof.
  induction data as [| [k r] data IH]; simpl; intros N.
  - now rewrite String.eqb_refl.
  - destruct (String.eqb_spec k key) as [E | N']; [tauto |].
    simpl. destruct (String.eqb_spec k key); [contradiction |].
    rewrite IH; tauto.
Qed.

(** [delete] of a name makes [find] of it return [None], leaves [find] of
    every other name as it was and keeps the names unique; deleting a name
    the book does not hold changes nothing, and deleting the name of a
    record just added under a fresh name gives the book back. *)
Theorem delete_removes_the_entry (book : AddressBook.t) (name : string) :
  NoDup (AddressBook.keys book) ->
  AddressBook.find (AddressBook.delete book name) name = None
  /\ (forall other,
        other <> name ->
        AddressBook.find (AddressBook.delete book name) other
        = AddressBook.find book other)
  /\ NoDup (AddressBook.keys (AddressBook.delete book name))
  /\ (AddressBook.find book name = None ->
      AddressBook.delete book name = book)
  /\ (forall record,
        Field.value (Record.name record) = name ->
        AddressBook.find book name = None ->
        AddressBook.delete (AddressBook.add_record book record) name = book).
Proof.
  intros D. unfold AddressBook.find, AddressBook.delete, AddressBook.contains.
  split; [| split; [| split; [| split]]].
  - destruct (AddressBook.get book name) eqn:G; [| exact G].
    now apply get_delitem_same.
  - intros other N. destruct (AddressBook.get book name); [| reflexivity].
    now apply get_delitem_other.
  - destruct (AddressBook.get book name); [| exact D].
    now apply nodup_delitem.
  - now intros ->.
  - intros record <- G. unfold AddressBook.add_record.
    rewrite get_setitem_same. apply delitem_setitem_fresh.
    now apply get_none.
Qed.

(** ** More on the upcoming birthdays *)

Lemma next_weekday_mod (o w k : Z) :
  0 <= w < 7 -> (o + (w - (o + 6) mod 7 + k * 7) + 6) mod 7 = w.
Proof.
  intros Hw.
  replace (o + (w - (o + 6) mod 7 + k * 7) + 6)
    with (w + ((o + 6) / 7 + k) * 7)
    by (pose proof (Z.div_mod (o + 6) 7); lia).
  rewrite Z_mod_plus_full. now apply Z.mod_small.
Qed.

(** [find_next_weekday], when it returns, returns a real date that falls on
    the weekday asked for and lies 1 to 7 days after the start date: a start
    date already on that weekday moves a whole week. *)
Theorem find_next_weekday_is_next (start_date d : date) (wd : Z) :
  0 <= wd <= 6 ->
  AddressBook.find_next_weekday start_date wd = Ok d ->
  valid d /\ weekday d = wd /\ 1 <= sub_days d start_date <= 7
  /\ (weekday start_date = wd -> sub_days d start_date = 7).
Proof.
  intros Hw. unfold AddressBook.find_next_weekday. cbv zeta.
  pose proof (weekday_range start_date) as R. intros H.
  apply add_days_ok in H. destruct H as [V O].
  split; [exact V |]. unfold sub_days.
  destruct (Z.leb_spec (wd - weekday start_date) 0) as [L | L].
  - split; [| lia]. unfold weekday in *. rewrite O.
    replace (wd - (toordinal start_date + 6) mod 7 + 7)
      with (wd - (toordinal start_date + 6) mod 7 + 1 * 7) by lia.
    apply next_weekday_mod. lia.
  - split; [| lia]. unfold weekday in *. rewrite O.
    replace (wd - (toordinal start_date + 6) mod 7)
      with (wd - (toordinal start_date + 6) mod 7 + 0 * 7) by lia.
    apply next_weekday_mod. lia.
Qed.

Section UpcomingDates.

Variable today : date.
Variable days : Z.
Hypothesis today_valid : valid today.

Lemma upcoming_loop_dates :
  forall records acc out,
    AddressBook.upcoming_loop today days records acc = Ok out ->
    Forall (Inv.reported today days) acc ->
    Forall (Inv.reported today days) out.
Proof.
  induction records as [| record records IH]; intros acc out H A.
  - now injection H as <-.
  - simpl in H.
    destruct (Record.birthday record) as [b |] eqn:B; [| eapply IH; eauto].
    unfold bind in H.
    destruct (replace_year (Field.value b) (year today)) as [d1 |] eqn:R1;
      [| discriminate].
    destruct (if lt d1 today then _ else _) as [d2 |] eqn:R2;
      [| discriminate].
    destruct (year_adjustment_ok today today_valid _ _ _ R1 R2) as [E V2].
    rewrite window_test in H.
    destruct (Spec.in_window today days d2) eqn:W; [| eapply IH; eauto].
    destruct (AddressBook.adjust_for_weekend d2) as [shifted |] eqn:S;
      [| discriminate].
    apply (IH _ _ H). apply Forall_app. split; [exact A |].
    constructor; [| constructor].
    exists shifted. split; [reflexivity |].
    apply adjust_for_weekend_ok in S. destruct S as (S5 & S6 & Sw).
    unfold Spec.in_window in W. apply andb_true_iff in W.
    rewrite !Z.leb_le in W. pose proof (weekday_range d2) as R.
    destruct (Z.eq_dec (weekday d2) 5) as [E5 | N5];
      [destruct (S5 E5) as [[V O] M]; split; [exact V | lia] |].
    destruct (Z.eq_dec (weekday d2) 6) as [E6 | N6];
      [destruct (S6 E6) as [[V O] M]; split; [exact V | lia] |].
    assert (L : weekday d2 < 5) by lia.
    rewrite (Sw L). split; [exact V2 | lia].
Qed.

End UpcomingDates.

Lemma never_selected (today : date) (days : Z) (records : list Record.t) :
  days < 0 -> filter (Spec.selected today days) records = [].
Proof.
  intros N. induction records as [| r records IH]; simpl; [reflexivity |].
  unfold Spec.selected at 1. destruct (Record.birthday r); [| exact IH].
  unfold Spec.in_window.
  destruct (Z.leb_spec (toordinal today)
              (toordinal (Spec.occurrence today (Field.value t))));
    destruct (Z.leb_spec (toordinal (Spec.occurrence today (Field.value t)))
                (toordinal today + days)); simpl; try exact IH.
  lia.
Qed.

(** Every date the query reports is the text of a real date that falls on a
    weekday, not before today and at most two days past the window.  The
    list has at most one element per record of the book, and it is empty
    when the number of days is negative. *)
Theorem upcoming_birthdays_reported_dates (today : date)
  (book : AddressBook.t) (days : Z) (out : list AddressBook.congratulation) :
  valid today ->
  AddressBook.get_upcoming_birthdays today book days = Ok out ->
  Forall (Inv.reported today days) out
  /\ (List.length out <= List.length book)%nat
  /\ (days < 0 -> out = []).
Proof.
  intros Vt H. unfold AddressBook.get_upcoming_birthdays in H.
  split; [apply (upcoming_loop_dates today days Vt _ _ _ H); constructor |].
  destruct (upcoming_loop_ok today days Vt _ _ _ H) as (entries & -> & F).
  cbn [app]. split.
  - rewrite <- (Forall2_length F).
    etransitivity; [apply filter_length_le |].
    unfold AddressBook.values. now rewrite length_map.
  - intros N. rewrite (never_selected today days _ N) in F.
    now inversion F.
Qed.

(** ** Words of a line *)

Lemma append_nil_r (s : string) : (s ++ "")%string = s.
Proof. induction s as [| c s IH]; simpl; congruence. Qed.

Lemma append_assoc (a b c : string) :
  ((a ++ b) ++ c)%string = (a ++ b ++ c)%string.
Proof. induction a as [| x a IH]; simpl; congruence. Qed.

Lemma all_chars_app (p : ascii -> bool) (a b : string) :
  all_chars p (a ++ b) = all_chars p a && all_chars p b.
Proof.
  induction a as [| c a IH]; simpl; [reflexivity |].
  now rewrite IH, andb_assoc.
Qed.

Lemma is_empty_app_char (cur : string) (c : ascii) :
  is_empty (cur ++ String c "") = false.
Proof. now destruct cur. Qed.

(** Reading the characters of a word extends the word being read. *)
Lemma split_from_word (w : string) :
  all_chars (fun c => negb (isspace_char c)) w = true ->
  forall cur s, split_from cur (w ++ s) = split_from (cur ++ w) s.
Proof.
  induction w as [| c w IH]; simpl; intros H cur s.
  - now rewrite append_nil_r.
  - apply andb_true_iff in H. destruct H as [Hc H].
    apply negb_true_iff in Hc. rewrite Hc, (IH H).
    now rewrite append_assoc.
Qed.

Lemma split_from_words (s : string) :
  forall cur,
    all_chars (fun c => negb (isspace_char c)) cur = true ->
    Forall Inv.word (split_from cur s).
Proof.
  induction s as [| c s IH]; simpl; intros cur H.
  - destruct cur as [| x cur]; simpl; [constructor |].
    constructor; [| constructor]. split; [discriminate | exact H].
  - destruct (isspace_char c) eqn:W.
    + destruct cur as [| x cur]; simpl; [now apply IH |].
      constructor; [split; [discriminate | exact H] | now apply IH].
    + apply IH. rewrite all_chars_app, H. simpl. now rewrite W.
Qed.

Lemma split_join (w : string) (ws : list string) :
  Inv.word w -> Forall Inv.word ws -> split (join " " (w :: ws)) = w :: ws.
Proof.
  intros Hw Hws. revert w Hw.
  induction Hws as [| v ws Hv Hws IH]; intros w [Nw Hw].
  - unfold split. simpl join. rewrite <- (append_nil_r w) at 1.
    rewrite (split_from_word w Hw). simpl.
    destruct w; [contradiction | reflexivity].
  - unfold split. change (join " " (w :: v :: ws))
      with (w ++ " " ++ join " " (v :: ws))%string.
    rewrite (split_from_word w Hw). simpl.
    destruct w as [| c w]; [contradiction |]. simpl.
    f_equal. now apply IH.
Qed.

Lemma lstrip_ws_word (w : string) :
  all_chars (fun c => negb (isspace_char c)) w = true -> lstrip_ws w = w.
Proof.
  destruct w as [| c w]; simpl; [reflexivity |].
  intros H. apply andb_true_iff in H. destruct H as [Hc _].
  apply negb_true_iff in Hc. now rewrite Hc.
Qed.

Lemma rstrip_ws_word (w : string) :
  all_chars (fun c => negb (isspace_char c)) w = true -> rstrip_ws w = w.
Proof.
  induction w as [| c w IH]; simpl; [reflexivity |].
  intros H. apply andb_true_iff in H. destruct H as [Hc H].
  apply negb_true_iff in Hc. now rewrite Hc, (IH H).
Qed.

Lemma strip_word (w : string) : Inv.word w -> strip w = w.
Proof.
  intros [_ H]. unfold strip. now rewrite (lstrip_ws_word w H), rstrip_ws_word.
Qed.

(** [parse_input] raises [ValueError] on a line with no word.  On any other
    line it returns the first word in lower case and the other words as they
    are, none of them empty or with white space; so a command word and
    arguments joined by blanks are read back, the command in lower case. *)
Theorem parse_input_reads_words (user_input : string) :
  (Inv.blank user_input ->
   Bot.parse_input user_input
   = Raise (ValueError "not enough values to unpack (expected at least 1, got 0)"))
  /\ (forall command args,
        Bot.parse_input user_input = Ok (command, args) ->
        Forall Inv.word args
        /\ exists w, Builtins.split user_input = w :: args
                     /\ Inv.word w /\ command = lower w)
  /\ (forall w args,
        Inv.word w -> Forall Inv.word args ->
        Bot.parse_input (join " " (w :: args)) = Ok (lower w, args)).
Proof.
  unfold Bot.parse_input, Inv.blank. split; [now intros -> |]. split.
  - intros command args H.
    pose proof (split_from_words user_input "" eq_refl) as F.
    fold (split user_input) in F.
    destruct (split user_input) as [| w ws]; [discriminate |].
    inversion F as [| ? ? Hw Hws]; subst.
    rewrite (strip_word w Hw) in H. injection H as <- <-.
    split; [exact Hws |]. exists w. auto.
  - intros w args Hw Ha. rewrite (split_join w args Hw Ha).
    now rewrite (strip_word w Hw).
Qed.

(** ** The handlers *)

Lemma setitem_same (data : AddressBook.t) (key : string) (r : Record.t) :
  AddressBook.get data key = Some r -> AddressBook.setitem data key r = data.
Proof.
  induction data as [| [k v] data IH]; simpl; [discriminate |].
  destruct (String.eqb_spec k key) as [E | N].
  - now intros [= ->].
  - intros H. now rewrite IH.
Qed.

(** What [edit_phone] does in each of its three cases. *)
Lemma edit_phone_cases (self : Record.t) (old_phone new_phone : string) :
  (Spec.ten_isdigit_chars new_phone = false ->
   Record.edit_phone self old_phone new_phone
   = (self, Raise (ValueError "The phone number must contain 10 digits!")))
  /\ (Spec.ten_isdigit_chars new_phone = true ->
      Record.find_phone self old_phone = None ->
      Record.edit_phone self old_phone new_phone
      = (self,
         Raise (ValueError ("Phone number " ++ old_phone ++ " not found!"))))
  /\ (Spec.ten_isdigit_chars new_phone = true ->
      Record.find_phone self old_phone <> None ->
      snd (Record.edit_phone self old_phone new_phone) = Ok tt).
Proof.
  unfold Record.edit_phone, Record.find_phone. rewrite phone_init_spec.
  split; [now intros -> |]. split; intros -> F; cbn [Field.value].
  - destruct (Record.edit_loop _ _ _) as [ps returned] eqn:L.
    destruct returned.
    + pose proof (edit_loop_returned old_phone new_phone
                    (Record.phones self)) as R.
      rewrite L in R. cbn [snd] in R. destruct (proj1 R eq_refl F).
    + apply edit_loop_not_returned in L. destruct L as [-> _].
      now rewrite record_set_phones_same.
  - apply edit_loop_returned with (new_value := new_phone) in F.
    destruct (Record.edit_loop _ _ _) as [ps returned].
    cbn [snd] in F. now subst returned.
Qed.

Lemma add_birthday_cases (self : Record.t) (raw : string) :
  (forall b,
     Birthday.__init__ raw = Ok b ->
     Record.add_birthday self raw
     = (Record.set_birthday self (Some b), Ok tt))
  /\ (forall e,
        Birthday.__init__ raw = Raise e ->
        Record.add_birthday self raw
        = (self, Raise (ValueError "Invalid date format. Use DD.MM.YYYY!"))).
Proof.
  unfold Record.add_birthday. split.
  - now intros b ->.
  - intros e E. rewrite E. now rewrite (birthday_raises raw e E).
Qed.

Ltac handler_cases :=
  repeat match goal with
  | |- context [match ?l with [] => _ | _ :: _ => _ end] => destruct l
  | |- context [if ?b then _ else _] => destruct b
  | |- context [match AddressBook.find ?b ?n with _ => _ end] =>
      destruct (AddressBook.find b n)
  | |- context [match Record.birthday ?r with _ => _ end] =>
      destruct (Record.birthday r)
  end.

Lemma handlers_return (args : list string) (book : AddressBook.t) :
  (exists text, snd (Bot.add_contact args book) = Bot.Return text)
  /\ (exists text, snd (Bot.change_contact args book) = Bot.Return text)
  /\ (exists text, snd (Bot.show_phone args book) = Bot.Return text)
  /\ (exists text, snd (Bot.show_all args book) = Bot.Return text)
  /\ (exists text, snd (Bot.add_birthday args book) = Bot.Return text)
  /\ (exists text, snd (Bot.show_birthday args book) = Bot.Return text).
Proof.
  split; [| split; [| split; [| split; [| split]]]].
  - unfold Bot.add_contact, Bot.input_error, Bot.Func.add_contact,
      Bot.Func.add_contact_phone, Record.__init__, Name.__init__,
      Field.__init__, bind, Record.add_phone.
    destruct args as [| name [| phone [| x args]]];
      try (eexists; reflexivity).
    rewrite phone_init_spec.
    destruct (AddressBook.find book name); destruct (is_empty phone);
      destruct (Spec.ten_isdigit_chars phone); eexists; reflexivity.
  - unfold Bot.change_contact, Bot.input_error, Bot.Func.change_contact.
    destruct args as [| name [| old_phone [| new_phone [| x args]]]];
      try (eexists; reflexivity).
    destruct (AddressBook.find book name) as [record |];
      [| eexists; reflexivity].
    destruct (edit_phone_cases record old_phone new_phone) as (C1 & C2 & C3).
    destruct (Spec.ten_isdigit_chars new_phone);
      [| rewrite (C1 eq_refl); eexists; reflexivity].
    destruct (Record.find_phone record old_phone) eqn:F;
      [| rewrite (C2 eq_refl eq_refl); eexists; reflexivity].
    assert (S := C3 eq_refl ltac:(discriminate)).
    destruct (Record.edit_phone record old_phone new_phone) as [r' o].
    cbn [snd] in S. subst o. eexists; reflexivity.
  - unfold Bot.show_phone, Bot.input_error, Bot.Func.show_phone.
    handler_cases; eexists; reflexivity.
  - unfold Bot.show_all, Bot.input_error, Bot.Func.show_all.
    handler_cases; eexists; reflexivity.
  - unfold Bot.add_birthday, Bot.input_error, Bot.Func.add_birthday.
    destruct args as [| name [| raw [| x args]]];
      try (eexists; reflexivity).
    destruct (AddressBook.find book name) as [record |];
      [| eexists; reflexivity].
    destruct (add_birthday_cases record raw) as (C1 & C2).
    destruct (Birthday.__init__ raw) as [b | e].
    + rewrite (C1 b eq_refl). eexists; reflexivity.
    + rewrite (C2 e eq_refl). eexists; reflexivity.
  - unfold Bot.show_birthday, Bot.input_error, Bot.Func.show_birthday.
    handler_cases; eexists; reflexivity.
Qed.

(** The six handlers that do not ask for the date always return a text: no
    exception goes through them. *)
Theorem handlers_always_return (args : list string) (book : AddressBook.t) :
  (exists text, snd (Bot.add_contact args book) = Bot.Return text)
  /\ (exists text, snd (Bot.change_contact args book) = Bot.Return text)
  /\ (exists text, snd (Bot.show_phone args book) = Bot.Return text)
  /\ (exists text, snd (Bot.show_all args book) = Bot.Return text)
  /\ (exists text, snd (Bot.add_birthday args book) = Bot.Return text)
  /\ (exists text, snd (Bot.show_birthday args book) = Bot.Return text).
Proof. exact (handlers_return args book). Qed.

(** Each handler asks for a number of words; with another number it returns
    the text on arguments and leaves the book as it is. *)
Theorem handlers_refuse_wrong_argument_count (args : list string)
  (book : AddressBook.t) (today : date) :
  let refused :=
    (book, Bot.Return "Enter the required arguments for the command!") in
  (List.length args <> 2%nat -> Bot.add_contact args book = refused)
  /\ (List.length args <> 3%nat -> Bot.change_contact args book = refused)
  /\ (List.length args <> 1%nat -> Bot.show_phone args book = refused)
  /\ (List.length args <> 0%nat -> Bot.show_all args book = refused)
  /\ (List.length args <> 2%nat -> Bot.add_birthday args book = refused)
  /\ (List.length args <> 1%nat -> Bot.show_birthday args book = refused)
  /\ (List.length args <> 0%nat -> Bot.birthdays today args book = refused).
Proof.
  cbv zeta.
  unfold Bot.add_contact, Bot.change_contact, Bot.show_phone, Bot.show_all,
    Bot.add_birthday, Bot.show_birthday, Bot.birthdays, Bot.input_error,
    Bot.Func.add_contact, Bot.Func.change_contact, Bot.Func.show_phone,
    Bot.Func.show_all, Bot.Func.add_birthday, Bot.Func.show_birthday,
    Bot.Func.birthdays.
  split; [| split; [| split; [| split; [| split; [| split]]]]]; intros N.
  - destruct args as [| a [| b [| c args]]]; try reflexivity.
    exfalso; apply N; reflexivity.
  - destruct args as [| a [| b [| c [| d args]]]]; try reflexivity.
    exfalso; apply N; reflexivity.
  - destruct (Z.ltb_spec 1 (Z.of_nat (List.length args))); [reflexivity |].
    destruct args as [| a [| b args]]; [reflexivity | | simpl in *; lia].
    exfalso; apply N; reflexivity.
  - destruct (Z.ltb_spec 0 (Z.of_nat (List.length args))); [reflexivity |].
    destruct args as [| a args]; [| simpl in *; lia].
    exfalso; apply N; reflexivity.
  - destruct args as [| a [| b [| c args]]]; try reflexivity.
    exfalso; apply N; reflexivity.
  - destruct (Z.ltb_spec 1 (Z.of_nat (List.length args))); [reflexivity |].
    destruct args as [| a [| b args]]; [reflexivity | | simpl in *; lia].
    exfalso; apply N; reflexivity.
  - destruct (Z.ltb_spec 0 (Z.of_nat (List.length args))); [reflexivity |].
    destruct args as [| a args]; [| simpl in *; lia].
    exfalso; apply N; reflexivity.
Qed.

(** For a name the book does not hold, the handlers that need the contact
    return the not-found text and leave the book as it is. *)
Theorem handlers_report_unknown_contact (book : AddressBook.t)
  (name : string) :
  AddressBook.find book name = None ->
  let unknown := (book, Bot.Return "Contact not found!") in
  (forall old_phone new_phone,
     Bot.change_contact [name; old_phone; new_phone] book = unknown)
  /\ Bot.show_phone [name] book = unknown
  /\ (forall birthday, Bot.add_birthday [name; birthday] book = unknown)
  /\ Bot.show_birthday [name] book = unknown.
Proof.
  intros F. cbv zeta.
  unfold Bot.change_contact, Bot.show_phone, Bot.add_birthday,
    Bot.show_birthday, Bot.input_error, Bot.Func.change_contact,
    Bot.Func.show_phone, Bot.Func.add_birthday, Bot.Func.show_birthday.
  cbn [List.length Z.of_nat Z.ltb Z.compare Pos.compare Pos.compare_cont].
  rewrite F. repeat split.
Qed.

Lemma show_handlers_fst (args : list string)
  (book : AddressBook.t) (today : date) :
  fst (Bot.show_phone args book) = book
  /\ fst (Bot.show_all args book) = book
  /\ fst (Bot.show_birthday args book) = book
  /\ fst (Bot.birthdays today args book) = book.
Proof.
  unfold Bot.show_phone, Bot.show_all, Bot.show_birthday, Bot.birthdays,
    Bot.input_error, Bot.Func.show_phone, Bot.Func.show_all,
    Bot.Func.show_birthday, Bot.Func.birthdays.
  split; [| split; [| split]].
  - handler_cases; reflexivity.
  - handler_cases; reflexivity.
  - handler_cases; reflexivity.
  - destruct (0 <? Z.of_nat (List.length args)); [reflexivity |].
    destruct (AddressBook.get_upcoming_birthdays today book 7)
      as [[| c out] | [m | m]]; reflexivity.
Qed.

(** The handlers that only show something never change the book. *)
Theorem showing_handlers_keep_the_book (args : list string)
  (book : AddressBook.t) (today : date) :
  fst (Bot.show_phone args book) = book
  /\ fst (Bot.show_all args book) = book
  /\ fst (Bot.show_birthday args book) = book
  /\ fst (Bot.birthdays today args book) = book.
Proof. exact (show_handlers_fst args book today). Qed.

Lemma add_contact_cases (book : AddressBook.t) (name phone : string) :
  phone <> EmptyString ->
  (AddressBook.find book name = None ->
   Bot.add_contact [name; phone] book
   = if Spec.ten_isdigit_chars phone
     then (book ++ [(name, Record.mk (Field.mk name) [Field.mk phone] None)],
           Bot.Return "Contact added.")
     else (book ++ [(name, Record.mk (Field.mk name) [] None)],
           Bot.Return "The phone number must contain 10 digits!"))
  /\ (forall record,
        AddressBook.find book name = Some record ->
        Bot.add_contact [name; phone] book
        = if Spec.ten_isdigit_chars phone
          then (AddressBook.setitem book name
                  (Record.set_phones record
                     (Record.phones record ++ [Field.mk phone])),
                Bot.Return "Contact updated.")
          else (book, Bot.Return "The phone number must contain 10 digits!")).
Proof.
  intros N.
  assert (E : is_empty phone = false) 
    by (destruct phone; [exfalso; apply N; reflexivity | reflexivity]).
  unfold Bot.add_contact, Bot.input_error, Bot.Func.add_contact,
    Bot.Func.add_contact_phone, Record.__init__, Name.__init__,
    Field.__init__, bind, Record.add_phone, AddressBook.add_record.
  rewrite E, phone_init_spec. cbn [Record.name Field.value].
  split.
  - intros F. rewrite F.
    assert (I : ~ In name (AddressBook.keys book)).
    { unfold AddressBook.find in F. clear - F.
      induction book as [| [k r] book IH]; simpl in *; [tauto |].
      destruct (String.eqb_spec k name); [discriminate |].
      intros [H | H]; [contradiction | now apply IH]. }
    rewrite (setitem_fresh book name _ I).
    destruct (Spec.ten_isdigit_chars phone).
    + rewrite (setitem_existing book [] name); [reflexivity | exact I].
    + rewrite (setitem_existing book [] name); [reflexivity | exact I].
  - intros record F. rewrite F.
    destruct (Spec.ten_isdigit_chars phone); [reflexivity |].
    now rewrite (setitem_same book name record F).
Qed.

(** [add_contact] with a name and a phone that is not empty.  A new name and
    a valid phone give a new last contact with that one phone; a new name
    and an invalid phone still give a new last contact, with no phone, and
    the text of the phone error; a known name gets the valid phone after
    its phones, and an invalid phone leaves the book as it is. *)
Theorem add_contact_effect (book : AddressBook.t) (name phone : string) :
  phone <> EmptyString ->
  (AddressBook.find book name = None ->
   Bot.add_contact [name; phone] book
   = if Spec.ten_isdigit_chars phone
     then (book ++ [(name, Record.mk (Field.mk name) [Field.mk phone] None)],
           Bot.Return "Contact added.")
     else (book ++ [(name, Record.mk (Field.mk name) [] None)],
           Bot.Return "The phone number must contain 10 digits!"))
  /\ (forall record,
        AddressBook.find book name = Some record ->
        Bot.add_contact [name; phone] book
        = if Spec.ten_isdigit_chars phone
          then (AddressBook.setitem book name
                  (Record.set_phones record
                     (Record.phones record ++ [Field.mk phone])),
                Bot.Return "Contact updated.")
          else (book, Bot.Return "The phone number must contain 10 digits!")).
Proof. exact (add_contact_cases book name phone). Qed.

Lemma get_none_fresh (book : AddressBook.t) (name : string) :
  AddressBook.get book name = None -> ~ In name (AddressBook.keys book).
Proof.
  induction book as [| [k r] book IH]; simpl; [tauto |].
  destruct (String.eqb_spec k name); [discriminate |].
  intros H [E | I]; [contradiction | now apply IH].
Qed.

(** After [add_contact] with a valid phone, [show_phone] of that name lists
    the phones the contact had, if it existed, and then the new phone. *)
Theorem add_contact_then_show_phone (book : AddressBook.t)
  (name phone : string) :
  phone <> EmptyString -> Spec.ten_isdigit_chars phone = true ->
  snd (Bot.show_phone [name] (fst (Bot.add_contact [name; phone] book)))
  = Bot.Return
      ("Contact phone numbers " ++ name ++ " - "
       ++ join ", "
            (match AddressBook.find book name with
             | Some record => map Field.value (Record.phones record)
             | None => []
             end ++ [phone])
       ++ ".").
Proof.
  intros N V. destruct (add_contact_cases book name phone N) as [C1 C2].
  rewrite V in C1, C2.
  unfold Bot.show_phone, Bot.input_error, Bot.Func.show_phone.
  cbn [List.length Z.of_nat Z.ltb Z.compare Pos.compare Pos.compare_cont].
  destruct (AddressBook.find book name) as [record |] eqn:F.
  - rewrite (C2 record eq_refl). cbn [fst]. unfold AddressBook.find.
    rewrite get_setitem_same. cbn [snd Record.set_phones Record.phones].
    now rewrite map_app.
  - rewrite (C1 eq_refl). cbn [fst].
    rewrite <- (setitem_fresh book name _ (get_none_fresh book name F)).
    unfold AddressBook.find. rewrite get_setitem_same. reflexivity.
Qed.

(** [change_contact] for a contact of the book: with a valid new phone and
    an old phone the contact has, the contact becomes what [edit_phone]
    makes of it and nothing else changes; with an invalid new phone, or an
    old phone the contact does not have, the book is as it was and the text
    is that of the error. *)
Theorem change_contact_effect (book : AddressBook.t)
  (name old_phone new_phone : string) (record : Record.t) :
  AddressBook.find book name = Some record ->
  (Spec.ten_isdigit_chars new_phone = false ->
   Bot.change_contact [name; old_phone; new_phone] book
   = (book, Bot.Return "The phone number must contain 10 digits!"))
  /\ (Spec.ten_isdigit_chars new_phone = true ->
      Record.find_phone record old_phone = None ->
      Bot.change_contact [name; old_phone; new_phone] book
      = (book,
         Bot.Return ("Phone number " ++ old_phone ++ " not found!")))
  /\ (Spec.ten_isdigit_chars new_phone = true ->
      Record.find_phone record old_phone <> None ->
      Bot.change_contact [name; old_phone; new_phone] book
      = (AddressBook.setitem book name
           (fst (Record.edit_phone record old_phone new_phone)),
         Bot.Return "Contact updated.")).
Proof.
  intros F.
  destruct (edit_phone_cases record old_phone new_phone) as (C1 & C2 & C3).
  unfold Bot.change_contact, Bot.input_error, Bot.Func.change_contact.
  rewrite F. split; [| split].
  - intros V. rewrite (C1 V). now rewrite (setitem_same book name record F).
  - intros V M. rewrite (C2 V M).
    now rewrite (setitem_same book name record F).
  - intros V M. specialize (C3 V M).
    destruct (Record.edit_phone record old_phone new_phone) as [r' o].
    cbn [fst snd] in *. now subst o.
Qed.

(** [add_birthday] for a contact of the book and a text [Birthday] accepts
    answers that the birthday is added and leaves the other contacts as
    they were; when the date is of the years 1000..9999, [show_birthday]
    then shows it as DD.MM.YYYY.  With a text [Birthday] refuses, the book
    is as it was and the text is that of the error. *)
Theorem add_birthday_then_show (book : AddressBook.t) (name raw : string)
  (record : Record.t) :
  AddressBook.find book name = Some record ->
  (forall b,
     Birthday.__init__ raw = Ok b ->
     snd (Bot.add_birthday [name; raw] book) = Bot.Return "Birthday added."
     /\ (1000 <= year (Field.value b) ->
         snd (Bot.show_birthday [name]
                (fst (Bot.add_birthday [name; raw] book)))
         = Bot.Return ("Birthday of " ++ name ++ " is "
                       ++ strftime_dmY (Field.value b) ++ "."))
     /\ (forall other,
           other <> name ->
           AddressBook.find (fst (Bot.add_birthday [name; raw] book)) other
           = AddressBook.find book other))
  /\ (forall e,
        Birthday.__init__ raw = Raise e ->
        Bot.add_birthday [name; raw] book
        = (book, Bot.Return "Invalid date format. Use DD.MM.YYYY!")).
Proof.
  intros F. destruct (add_birthday_cases record raw) as (C1 & C2).
  unfold Bot.add_birthday, Bot.show_birthday, Bot.input_error,
    Bot.Func.add_birthday, Bot.Func.show_birthday.
  rewrite F. split.
  - intros b E. rewrite (C1 b E). cbn [fst snd].
    split; [reflexivity |]. split.
    + intros _.
      cbn [List.length Z.of_nat Z.ltb Z.compare Pos.compare
             Pos.compare_cont].
      unfold AddressBook.find. rewrite get_setitem_same.
      reflexivity.
    + intros other N. unfold AddressBook.find.
      now apply get_setitem_other.
  - intros e E. rewrite (C2 e E).
    now rewrite (setitem_same book name record F).
Qed.

Section UpcomingErrors.

Variable today : date.
Variable days : Z.
Hypothesis next_year_in_range : year today + 1 < MAXYEAR.

(** Before the last years a date can hold, the loop raises nothing but the
    [ValueError] of [date.replace]. *)
Lemma upcoming_loop_raises_value_error :
  forall records acc e,
    AddressBook.upcoming_loop today days records acc = Raise e ->
    class_of e = ValueError_class.
Proof.
  induction records as [| record records IH]; intros acc e; simpl;
    [discriminate |].
  destruct (Record.birthday record) as [b |]; [| apply IH].
  unfold bind.
  destruct (replace_year (Field.value b) (year today)) as [d1 | e1] eqn:R1;
    [| intros [= <-]; now apply date_new_raises in R1].
  destruct (if lt d1 today then _ else _) as [d2 | e2] eqn:R2.
  - assert (V : valid d2 /\ year d2 < MAXYEAR).
    { apply replace_year_ok in R1. destruct R1 as [-> V1].
      destruct (lt _ today).
      - apply replace_year_ok in R2. destruct R2 as [-> V2].
        split; [exact V2 | cbn [year]; lia].
      - injection R2 as <-. split; [exact V1 | cbn [year]; lia]. }
    destruct V as [V Y].
    destruct (_ && _); [| apply IH].
    destruct (adjust_for_weekend_returns d2 V Y) as [shifted ->].
    apply IH.
  - intros [= <-]. destruct (lt d1 today); [| discriminate].
    now apply date_new_raises in R2.
Qed.

End UpcomingErrors.

Lemma birthdays_returns (today : date) (args : list string)
  (book : AddressBook.t) :
  year today + 1 < MAXYEAR ->
  exists text, Bot.birthdays today args book = (book, Bot.Return text).
Proof.
  intros Y.
  unfold Bot.birthdays, Bot.input_error, Bot.Func.birthdays,
    AddressBook.get_upcoming_birthdays.
  destruct (0 <? Z.of_nat (List.length args)); [eexists; reflexivity |].
  destruct (AddressBook.upcoming_loop today 7 (AddressBook.values book) [])
    as [[| c out] | e] eqn:L; try (eexists; reflexivity).
  apply (upcoming_loop_raises_value_error today 7 Y) in L.
  destruct e; [eexists; reflexivity | discriminate L].
Qed.

(** Before the last years a date can hold, [birthdays] always returns a
    text and leaves the book as it is.  When the book holds a February 29
    birthday whose target year has no February 29, the text is the one on
    arguments, though no argument is missing. *)
Theorem birthdays_handler_answers (today : date) (args : list string)
  (book : AddressBook.t) :
  year today + 1 < MAXYEAR ->
  (exists text, Bot.birthdays today args book = (book, Bot.Return text))
  /\ (forall record b,
        In record (AddressBook.values book) ->
        Record.birthday record = Some b ->
        Spec.leap_day (Field.value b) ->
        Spec.leap_day_target_missing today = true ->
        Bot.birthdays today [] book
        = (book, Bot.Return "Enter the required arguments for the command!")).
Proof.
  intros Y.
  split; [now apply birthdays_returns |].
  unfold Bot.birthdays, Bot.input_error, Bot.Func.birthdays,
    AddressBook.get_upcoming_birthdays.
  intros record b I B LD T. cbn [List.length Z.of_nat Z.ltb Z.compare].
    destruct (upcoming_loop_leap_day today 7 record b B LD T _ [] I)
      as [e L].
    rewrite L.
    apply (upcoming_loop_raises_value_error today 7 Y) in L.
    destruct e; [reflexivity | discriminate L].
Qed.

(** ** The book stays valid *)

Lemma keys_setitem_in (data : AddressBook.t) (key k : string)
  (v : Record.t) :
  In k (AddressBook.keys (AddressBook.setitem data key v)) <->
  In k (AddressBook.keys data) \/ k = key.
Proof.
  induction data as [| [k' r] data IH]; simpl.
  - intuition congruence.
  - destruct (String.eqb_spec k' key) as [E | N]; simpl.
    + subst. intuition congruence.
    + rewrite IH. tauto.
Qed.

Lemma book_ok_setitem (book : AddressBook.t) (key : string) (r : Record.t) :
  Inv.book_ok book -> Field.value (Record.name r) = key -> Inv.record_ok r ->
  Inv.book_ok (AddressBook.setitem book key r).
Proof.
  intros [D F] N R. induction book as [| [k v] book IH]; simpl.
  - split; [constructor; [intros [] | constructor] |].
    constructor; [split; assumption | constructor].
  - inversion D as [| ? ? Nk D']; subst. inversion F as [| ? ? Fk F']; subst.
    destruct (String.eqb_spec k (Field.value (Record.name r))) as [E | N'].
    + split; [exact D |]. constructor; [| exact F'].
      split; [now rewrite E | exact R].
    + destruct (IH D' F') as [D'' F'']. split.
      * simpl. constructor; [| exact D''].
        rewrite keys_setitem_in. intros [I | E]; [auto | congruence].
      * constructor; assumption.
Qed.

Lemma book_ok_get (book : AddressBook.t) (key : string) (r : Record.t) :
  Inv.book_ok book -> AddressBook.get book key = Some r ->
  Field.value (Record.name r) = key /\ Inv.record_ok r.
Proof.
  intros [_ F]. induction F as [| [k v] book [Hk Hv] F IH]; simpl;
    [discriminate |].
  destruct (String.eqb_spec k key) as [E | N]; [| exact IH].
  intros [= <-]. simpl in *. split; [congruence | exact Hv].
Qed.

Lemma book_ok_delete (book : AddressBook.t) (name : string) :
  Inv.book_ok book -> Inv.book_ok (AddressBook.delete book name).
Proof.
  intros [D F]. unfold AddressBook.delete.
  destruct (AddressBook.contains book name); [| now split].
  split.
  - clear F. induction book as [| [k r] book IH]; simpl; [exact D |].
    inversion D as [| ? ? N D']; subst.
    destruct (String.eqb k name); [exact D' |]. simpl.
    constructor; [| auto]. intros I. apply N. clear - I.
    induction book as [| [k' r'] book IH]; simpl in *; [tauto |].
    destruct (String.eqb k' name); simpl in *; tauto.
  - clear D. induction F as [| [k r] book H F IH]; simpl; [constructor |].
    destruct (String.eqb k name); [exact F | now constructor].
Qed.

Lemma edit_phone_name (self : Record.t) (old_phone new_phone : string) :
  Record.name (fst (Record.edit_phone self old_phone new_phone))
  = Record.name self.
Proof.
  unfold Record.edit_phone. destruct (Phone.__init__ new_phone);
    [| reflexivity].
  destruct (Record.edit_loop _ _ _) as [ps [|]]; reflexivity.
Qed.

Lemma add_phone_name (self : Record.t) (phone : string) :
  Record.name (fst (Record.add_phone self phone)) = Record.name self.
Proof.
  unfold Record.add_phone. now destruct (Phone.__init__ phone).
Qed.

Lemma add_birthday_name (self : Record.t) (raw : string) :
  Record.name (fst (Record.add_birthday self raw)) = Record.name self.
Proof.
  unfold Record.add_birthday. now destruct (Birthday.__init__ raw).
Qed.

Lemma handlers_keep_book_ok (today : date) (args : list string)
  (book : AddressBook.t) :
  Inv.book_ok book ->
  Inv.book_ok (fst (Bot.add_contact args book))
  /\ Inv.book_ok (fst (Bot.change_contact args book))
  /\ Inv.book_ok (fst (Bot.show_phone args book))
  /\ Inv.book_ok (fst (Bot.show_all args book))
  /\ Inv.book_ok (fst (Bot.add_birthday args book))
  /\ Inv.book_ok (fst (Bot.show_birthday args book))
  /\ Inv.book_ok (fst (Bot.birthdays today args book)).
Proof.
  intros K.
  destruct record_methods_ok as [Rnew Rkeep].
  split; [| split; [| split; [| split; [| split; [| split]]]]].
  - unfold Bot.add_contact, Bot.input_error, Bot.Func.add_contact.
    destruct args as [| name [| phone [| x args]]]; try exact K.
    assert (P : forall record book' message,
      Inv.book_ok book' -> Field.value (Record.name record) = name ->
      Inv.record_ok record ->
      Inv.book_ok
        (fst (let '(book'', o) :=
                Bot.Func.add_contact_phone name phone record book' message in
              match o with
              | Bot.Throw (Bot.Core (ValueError _)) =>
                  (book'', Bot.Return
                     "Enter the required arguments for the command!")
              | Bot.Throw Bot.IndexError =>
                  (book'', Bot.Return
                     "Enter the required arguments for the command!")
              | Bot.Throw Bot.KeyError =>
                  (book'', Bot.Return "Contact not found!")
              | _ => (book'', o)
              end))).
    { intros record book' message K' N R.
      unfold Bot.Func.add_contact_phone.
      destruct (is_empty phone); [exact K' |].
      pose proof (add_phone_name record phone) as N'.
      destruct (Rkeep record R) as (A & _). specialize (A phone).
      destruct (Record.add_phone record phone) as [record' [u | [m | m]]];
        cbn [fst] in *; apply book_ok_setitem; congruence. }
    destruct (AddressBook.find book name) as [record |] eqn:F.
    + destruct (book_ok_get book name record K F) as [N R]. now apply P.
    + unfold Record.__init__, Name.__init__, Field.__init__, bind.
      apply P; [| reflexivity | now apply (Rnew name)].
      apply book_ok_setitem; [exact K | reflexivity | now apply (Rnew name)].
  - unfold Bot.change_contact, Bot.input_error, Bot.Func.change_contact.
    destruct args as [| name [| old_phone [| new_phone [| x args]]]];
      try exact K.
    destruct (AddressBook.find book name) as [record |] eqn:F; [| exact K].
    destruct (book_ok_get book name record K F) as [N R].
    pose proof (edit_phone_name record old_phone new_phone) as N'.
    destruct (Rkeep record R) as (_ & _ & E & _).
    specialize (E old_phone new_phone).
    destruct (Record.edit_phone record old_phone new_phone)
      as [record' [u | [m | m]]];
      cbn [fst] in *; apply book_ok_setitem; congruence.
  - now rewrite (proj1 (show_handlers_fst args book today)).
  - now rewrite (proj1 (proj2 (show_handlers_fst args book today))).
  - unfold Bot.add_birthday, Bot.input_error, Bot.Func.add_birthday.
    destruct args as [| name [| raw [| x args]]]; try exact K.
    destruct (AddressBook.find book name) as [record |] eqn:F; [| exact K].
    destruct (book_ok_get book name record K F) as [N R].
    pose proof (add_birthday_name record raw) as N'.
    destruct (Rkeep record R) as (_ & _ & _ & B). specialize (B raw).
    destruct (Record.add_birthday record raw) as [record' [u | [m | m]]];
      cbn [fst] in *; apply book_ok_setitem; congruence.
  - now rewrite (proj1 (proj2 (proj2
        (show_handlers_fst args book today)))).
  - now rewrite (proj2 (proj2 (proj2
        (show_handlers_fst args book today)))).
Qed.

(** ** The loop of [main] *)

Lemma main_loop_crash (inputs : list (date * string)) :
  Forall (fun input => year (fst input) + 1 < MAXYEAR) inputs ->
  forall book out r,
    Bot.ended (Bot.main_loop inputs book out) = Bot.Crash r ->
    r = Bot.Core (ValueError "not enough values to unpack (expected at least 1, got 0)")
    /\ Exists Inv.blank (map snd inputs).
Proof.
  induction 1 as [| [today line] inputs Y F IH]; intros book out r;
    cbn [Bot.main_loop]; [discriminate |].
  cbn [fst] in Y.
  assert (Next : forall book' out',
    Bot.ended (Bot.main_loop inputs book' out') = Bot.Crash r ->
    r = Bot.Core (ValueError "not enough values to unpack (expected at least 1, got 0)")
    /\ Exists Inv.blank (map snd ((today, line) :: inputs))).
  { intros book' out' H. destruct (IH _ _ _ H) as [E X].
    split; [exact E | now apply Exists_cons_tl]. }
  assert (Run : forall (h : Bot.handler) args,
    (exists text, snd (h args book) = Bot.Return text) ->
    Bot.ended
      match h args book with
      | (book', Bot.Return text) =>
          Bot.main_loop inputs book' (out ++ [text])
      | (book', Bot.Throw r') => Bot.mk_session book' out (Bot.Crash r')
      end = Bot.Crash r ->
    r = Bot.Core (ValueError "not enough values to unpack (expected at least 1, got 0)")
    /\ Exists Inv.blank (map snd ((today, line) :: inputs))).
  { intros h args [text T]. destruct (h args book) as [book' o].
    cbn [snd] in T. subst o. apply Next. }
  unfold Bot.parse_input.
  destruct (split line) as [| w args] eqn:S.
  - cbn [Bot.ended]. intros [= <-]. split; [reflexivity |].
    now apply Exists_cons_hd.
  - cbv zeta.
    destruct (handlers_return args book) as (H1 & H2 & H3 & H4 & H5 & H6).
    destruct (birthdays_returns today args book Y) as [text H7].
    repeat match goal with
    | |- context [if ?b then _ else _] => destruct b
    end;
    try discriminate; try apply Next; try (apply Run; assumption).
    apply Run. exists text. now rewrite H7.
Qed.

Lemma main_loop_book_ok (inputs : list (date * string)) :
  forall book out,
    Inv.book_ok book ->
    Inv.book_ok (Bot.final_book (Bot.main_loop inputs book out)).
Proof.
  induction inputs as [| [today line] inputs IH]; intros book out K;
    cbn [Bot.main_loop]; [exact K |].
  assert (Run : forall (h : Bot.handler) args,
    Inv.book_ok (fst (h args book)) ->
    Inv.book_ok
      (Bot.final_book
         match h args book with
         | (book', Bot.Return text) =>
             Bot.main_loop inputs book' (out ++ [text])
         | (book', Bot.Throw r') => Bot.mk_session book' out (Bot.Crash r')
         end)).
  { intros h args H. destruct (h args book) as [book' [text | r']];
      cbn [fst] in H; [now apply IH | exact H]. }
  destruct (Bot.parse_input line) as [[command args] | e]; [| exact K].
  cbv zeta.
  destruct (handlers_keep_book_ok today args book K)
    as (H1 & H2 & H3 & H4 & H5 & H6 & H7).
  repeat match goal with
  | |- context [if ?b then _ else _] => destruct b
  end;
  try exact K; try (now apply IH); now apply Run.
Qed.

(** [add_record] of a record with valid fields, [delete] and every handler
    keep the book valid: no name is held twice, every record is held under
    its own name, every phone is one [Phone] accepts and every birthday is
    a real date. *)
Theorem handlers_keep_the_book_valid (book : AddressBook.t) :
  Inv.book_ok book ->
  (forall record,
     Inv.record_ok record ->
     Inv.book_ok (AddressBook.add_record book record))
  /\ (forall name, Inv.book_ok (AddressBook.delete book name))
  /\ (forall today args,
        Inv.book_ok (fst (Bot.add_contact args book))
        /\ Inv.book_ok (fst (Bot.change_contact args book))
        /\ Inv.book_ok (fst (Bot.show_phone args book))
        /\ Inv.book_ok (fst (Bot.show_all args book))
        /\ Inv.book_ok (fst (Bot.add_birthday args book))
        /\ Inv.book_ok (fst (Bot.show_birthday args book))
        /\ Inv.book_ok (fst (Bot.birthdays today args book))).
Proof.
  intros K. split; [| split].
  - intros record R. now apply book_ok_setitem.
  - intros name. now apply book_ok_delete.
  - intros today args. now apply handlers_keep_book_ok.
Qed.

(** Whatever the lines typed, and however [main] ends, the book it ends
    with is valid. *)
Theorem main_keeps_the_book_valid (inputs : list (date * string)) :
  Inv.book_ok (Bot.final_book (Bot.main inputs)).
Proof.
  unfold Bot.main. apply main_loop_book_ok.
  split; constructor.
Qed.

(** How [main] can end, every line being read before the last years a
    date can hold: it leaves the loop, [input()] finds no line left, or the
    unpacking in [parse_input] raises its [ValueError]. *)
Lemma main_loop_ending (inputs : list (date * string)) :
  Forall (fun input => year (fst input) + 1 < MAXYEAR) inputs ->
  forall book out,
    match Bot.ended (Bot.main_loop inputs book out) with
    | Bot.Exit => Exists Inv.exit_line (map snd inputs)
    | Bot.EOFError =>
        Forall (fun line => ~ Inv.blank line /\ ~ Inv.exit_line line)
          (map snd inputs)
    | Bot.Crash r =>
        r = Bot.Core
              (ValueError
                 "not enough values to unpack (expected at least 1, got 0)")
        /\ Exists Inv.blank (map snd inputs)
    end.
Proof.
  induction 1 as [| [today line] inputs Y F IH]; intros book out;
    cbn [Bot.main_loop]; [constructor |].
  cbn [fst] in Y. unfold Bot.parse_input.
  destruct (split line) as [| w args] eqn:S.
  - cbn [Bot.ended]. split; [reflexivity |]. now apply Exists_cons_hd.
  - pose proof (split_from_words line "" eq_refl) as W.
    fold (split line) in W. rewrite S in W.
    inversion W as [| ? ? Hw _]; subst.
    rewrite (strip_word w Hw). cbv zeta.
    destruct (String.eqb_spec (lower w) "close") as [C | NC].
    { cbn [orb Bot.ended]. apply Exists_cons_hd. exists w, args. auto. }
    destruct (String.eqb_spec (lower w) "exit") as [E | NE].
    { cbn [orb Bot.ended]. apply Exists_cons_hd. exists w, args. auto. }
    cbn [orb].
    assert (Next : forall book' out',
      match Bot.ended (Bot.main_loop inputs book' out') with
      | Bot.Exit => Exists Inv.exit_line (map snd ((today, line) :: inputs))
      | Bot.EOFError =>
          Forall (fun line => ~ Inv.blank line /\ ~ Inv.exit_line line)
            (map snd ((today, line) :: inputs))
      | Bot.Crash r =>
          r = Bot.Core
                (ValueError
                   "not enough values to unpack (expected at least 1, got 0)")
          /\ Exists Inv.blank (map snd ((today, line) :: inputs))
      end).
    { intros book' out'. specialize (IH book' out').
      destruct (Bot.ended (Bot.main_loop inputs book' out')) as [| r |].
      - now apply Exists_cons_tl.
      - destruct IH as [R X]. split; [exact R | now apply Exists_cons_tl].
      - constructor; [| exact IH]. cbn [snd]. split.
        + unfold Inv.blank. rewrite S. discriminate.
        + intros (w' & args' & S' & L). rewrite S in S'.
          injection S' as <- <-. destruct L; contradiction. }
    assert (Run : forall (h : Bot.handler),
      (exists text, snd (h args book) = Bot.Return text) ->
      match
        Bot.ended
          match h args book with
          | (book', Bot.Return text) =>
              Bot.main_loop inputs book' (out ++ [text])
          | (book', Bot.Throw r') => Bot.mk_session book' out (Bot.Crash r')
          end
      with
      | Bot.Exit => Exists Inv.exit_line (map snd ((today, line) :: inputs))
      | Bot.EOFError =>
          Forall (fun line => ~ Inv.blank line /\ ~ Inv.exit_line line)
            (map snd ((today, line) :: inputs))
      | Bot.Crash r =>
          r = Bot.Core
                (ValueError
                   "not enough values to unpack (expected at least 1, got 0)")
          /\ Exists Inv.blank (map snd ((today, line) :: inputs))
      end).
    { intros h [text T]. destruct (h args book) as [book' o].
      cbn [snd] in T. subst o. apply Next. }
    destruct (handlers_return args book) as (H1 & H2 & H3 & H4 & H5 & H6).
    destruct (birthdays_returns today args book Y) as [text H7].
    repeat match goal with
    | |- context [if ?b then _ else _] => destruct b
    end;
    try apply Next; try (apply Run; assumption).
    apply Run. exists text. now rewrite H7.
Qed.

(** [main] ends in one of three ways.  A line with no word stops it with
    the [ValueError] of the unpacking in [parse_input], the book and the
    printed lines being what they were.  When every line is read before the
    last years a date can hold, no other exception comes from a line: [main]
    leaves the loop after a line of close or exit, or ends with that
    [ValueError] at a line with no word, or, every line having a word and
    none being close or exit, ends with the [EOFError] of [input()] when no
    line is left. *)
Theorem main_stops_only_on_blank_line (inputs : list (date * string))
  (book : AddressBook.t) (out : list string) :
  (forall today line rest,
     Inv.blank line ->
     Bot.main_loop ((today, line) :: rest) book out
     = Bot.mk_session book out
         (Bot.Crash
            (Bot.Core
               (ValueError
                  "not enough values to unpack (expected at least 1, got 0)"))))
  /\ (Forall (fun input => year (fst input) + 1 < MAXYEAR) inputs ->
      (Bot.ended (Bot.main_loop inputs book out) = Bot.Exit
       /\ Exists Inv.exit_line (map snd inputs))
      \/ (Bot.ended (Bot.main_loop inputs book out) = Bot.EOFError
          /\ Forall (fun line => ~ Inv.blank line /\ ~ Inv.exit_line line)
               (map snd inputs))
      \/ (Bot.ended (Bot.main_loop inputs book out)
          = Bot.Crash
              (Bot.Core
                 (ValueError
                    "not enough values to unpack (expected at least 1, got 0)"))
          /\ Exists Inv.blank (map snd inputs))).
Proof.
  split.
  - intros today line rest B. cbn [Bot.main_loop]. unfold Bot.parse_input.
    now rewrite B.
  - intros F. pose proof (main_loop_ending inputs F book out) as E.
    destruct (Bot.ended (Bot.main_loop inputs book out)) as [| r |].
    + left. auto.
    + right. right. destruct E as [-> X]. auto.
    + right. left. auto.
Qed.

(** A line whose first word is close or exit, in any case of letters, makes
    [main] print the farewell and end; the book is kept and the lines after
    it are not read. *)
Theorem main_exits_on_close_or_exit (today : date) (line w : string)
  (args : list string) (rest : list (date * string)) (book : AddressBook.t)
  (out : list string) :
  split line = w :: args ->
  lower w = "close"%string \/ lower w = "exit"%string ->
  Bot.main_loop ((today, line) :: rest) book out
  = Bot.mk_session book (out ++ ["Good bye!"%string]) Bot.Exit.
Proof.
  intros S L. cbn [Bot.main_loop]. unfold Bot.parse_input. rewrite S.
  pose proof (split_from_words line "" eq_refl) as F.
  fold (split line) in F. rewrite S in F.
  inversion F as [| ? ? Hw _]; subst.
  rewrite (strip_word w Hw). cbv zeta.
  destruct L as [-> | ->]; reflexivity.
Qed.

(** ** The properties at sample inputs *)

Lemma sample_book_names_unique : NoDup (AddressBook.keys Sample.book).
Proof.
  repeat constructor; simpl; intros H;
    repeat (destruct H as [H | H]; [discriminate H |]); exact H.
Defined.

Lemma sample_dan_book_ok : Inv.book_ok [("Dan"%string, Sample.dan)].
Proof.
  split.
  - constructor; [intros [] | constructor].
  - constructor; [| constructor]. split; [reflexivity |]. split.
    + constructor; [reflexivity | constructor].
    + intros b H. discriminate H.
Defined.

Lemma delete_removes_the_entry_witness :
  AddressBook.find (AddressBook.delete Sample.book "Dan") "Dan" = None.
Proof.
  exact (proj1 (delete_removes_the_entry Sample.book "Dan"
                  sample_book_names_unique)).
Defined.

(** The Friday after Wednesday 11 June 2025 is two days later. *)
Lemma find_next_weekday_is_next_witness :
  valid (mkdate 2025 6 13) /\ weekday (mkdate 2025 6 13) = 4
  /\ 1 <= sub_days (mkdate 2025 6 13) Sample.wednesday <= 7
  /\ (weekday Sample.wednesday = 4 ->
      sub_days (mkdate 2025 6 13) Sample.wednesday = 7).
Proof.
  apply (find_next_weekday_is_next Sample.wednesday (mkdate 2025 6 13) 4).
  - split; discriminate.
  - reflexivity.
Defined.

Lemma upcoming_birthdays_window_witness :
  map AddressBook.name
    [AddressBook.mk_congratulation "Ann" "16.06.2025";
     AddressBook.mk_congratulation "Bob" "18.06.2025";
     AddressBook.mk_congratulation "Cid" "16.06.2025"]
  = map (fun record => Field.value (Record.name record))
      (filter (Spec.selected Sample.wednesday 7)
         (AddressBook.values Sample.book)).
Proof.
  apply (upcoming_birthdays_window Sample.wednesday Sample.book 7).
  - exact (proj2 (proj1 (date_new_ok 2025 6 11 _) eq_refl)).
  - reflexivity.
Defined.

Lemma upcoming_birthdays_reported_dates_witness :
  Forall (Inv.reported Sample.wednesday 7)
    [AddressBook.mk_congratulation "Ann" "16.06.2025";
     AddressBook.mk_congratulation "Bob" "18.06.2025";
     AddressBook.mk_congratulation "Cid" "16.06.2025"].
Proof.
  apply (upcoming_birthdays_reported_dates Sample.wednesday Sample.book 7).
  - exact (proj2 (proj1 (date_new_ok 2025 6 11 _) eq_refl)).
  - reflexivity.
Defined.

Lemma handlers_report_unknown_contact_witness :
  Bot.show_phone ["Zoe"%string] Sample.book
  = (Sample.book, Bot.Return "Contact not found!").
Proof.
  exact (proj1 (proj2 (handlers_report_unknown_contact Sample.book "Zoe"
                         eq_refl))).
Defined.

(** A new name with a phone of 8 digits: the contact is added without a
    phone. *)
Lemma add_contact_effect_witness :
  Bot.add_contact ["Zoe"%string; "55512345"%string] Sample.book
  = (Sample.book ++ [("Zoe"%string, Sample.record "Zoe" [] None)],
     Bot.Return "The phone number must contain 10 digits!").
Proof.
  refine (proj1 (add_contact_effect Sample.book "Zoe" "55512345" _) eq_refl).
  discriminate.
Defined.

Lemma add_contact_then_show_phone_witness :
  snd (Bot.show_phone ["Dan"%string]
         (fst (Bot.add_contact ["Dan"%string; "0123456789"%string]
                 Sample.book)))
  = Bot.Return "Contact phone numbers Dan - 5551234567, 0123456789.".
Proof.
  refine (add_contact_then_show_phone Sample.book "Dan" "0123456789" _
            eq_refl).
  discriminate.
Defined.

Lemma change_contact_effect_witness :
  Bot.change_contact
    ["Dan"%string; "9999999999"%string; "0123456789"%string] Sample.book
  = (Sample.book, Bot.Return "Phone number 9999999999 not found!").
Proof.
  exact (proj1 (proj2 (change_contact_effect Sample.book "Dan" "9999999999"
                         "0123456789" Sample.dan eq_refl))
           eq_refl eq_refl).
Defined.

Lemma add_birthday_then_show_witness :
  snd (Bot.show_birthday ["Dan"%string]
         (fst (Bot.add_birthday ["Dan"%string; "1.6.1990"%string]
                 Sample.book)))
  = Bot.Return "Birthday of Dan is 01.06.1990.".
Proof.
  refine (proj1 (proj2 (proj1 (add_birthday_then_show Sample.book "Dan"
                                 "1.6.1990" Sample.dan eq_refl)
                          (Field.mk (mkdate 1990 6 1)) eq_refl)) _).
  discriminate.
Defined.

Lemma birthdays_handler_answers_witness :
  Bot.birthdays Sample.wednesday [] Sample.leap_book
  = (Sample.leap_book,
     Bot.Return "Enter the required arguments for the command!").
Proof.
  refine (proj2 (birthdays_handler_answers Sample.wednesday []
                   Sample.leap_book _)
            Sample.leo (Field.mk (mkdate 2000 2 29)) _ eq_refl _ eq_refl).
  - reflexivity.
  - right. left. reflexivity.
  - split; reflexivity.
Defined.

Lemma handlers_keep_the_book_valid_witness :
  Inv.book_ok
    (fst (Bot.add_contact ["Dan"%string; "0123456789"%string]
            [("Dan"%string, Sample.dan)])).
Proof.
  exact (proj1 (proj2 (proj2 (handlers_keep_the_book_valid
                                [("Dan"%string, Sample.dan)]
                                sample_dan_book_ok))
                  Sample.wednesday
                  ["Dan"%string; "0123456789"%string])).
Defined.

Lemma main_exits_on_close_or_exit_witness :
  Bot.main_loop
    [(Sample.wednesday, "EXIT now"%string);
     (Sample.wednesday, "all"%string)] Sample.book []
  = Bot.mk_session Sample.book ["Good bye!"%string] Bot.Exit.
Proof.
  apply (main_exits_on_close_or_exit Sample.wednesday "EXIT now" "EXIT"
           ["now"%string]).
  - reflexivity.
  - right. reflexivity.
Defined.
